(** * n8n-nodes-pdfconvert: the page-range parser and the conversion
      orchestration of the PDF Convert node, embedded and verified.

    The repository ships two variants of the node class [PdfConvert]:
    - the in-memory variant (pdf-img-convert), with the static method
      [parsePageNumbers] and base64 / binary input modes; it is embedded in
      [Module InMemory];
    - the file-based variant (pdf2pic, src/nodes/PdfConvert/PdfConvert.node.ts),
      which goes through temporary files; it is embedded in [Module FileBased].

    Modelling conventions.
    - A JavaScript string is the list of its UTF-16 code units ([list N]).
    - The JavaScript numbers that occur here are page numbers and counters.
      They are modelled as mathematical integers ([Z]); [NaN] and [undefined]
      are [None].  The source computes with IEEE doubles, which agree with
      [Z] as long as every number written in a page expression is below
      2^53; beyond that the source rounds, and the model does not follow it.
    - The workflow host, Node's runtime and the two rasterization libraries
      are not part of the repository: they are the fields of a [Host]
      record, and a statement that needs something of them says so in a
      hypothesis.
    - An exception is a value of [jsError]; code that may throw returns a
      [result]. *)

From Stdlib Require Import ZArith NArith Lia Bool.
From Stdlib Require Import String Ascii DecimalString DecimalPos DecimalZ.
From stdpp Require Import gmap list fin_maps sorting.

Local Open Scope Z_scope.
Set Warnings "-register-all".

(* ===================================================================== *)
(** * Part I. The embedding                                               *)
(* ===================================================================== *)

(** ** Exceptions and fallible computations *)

Abbreviation jsstring := (list N).

(** The error classes the two nodes meet.  [NodeOperationError] is the only
    one that carries a [context] object (with the optional [itemIndex]);
    [PlainError] stands for an [Error] raised by a collaborator (the
    rasterization backend, the file system). *)
Inductive jsError : Type :=
| ApplicationError (message : jsstring)
| NodeOperationError (message : jsstring) (itemIndex : option nat)
| PlainError (message : jsstring).

Definition message (e : jsError) : jsstring :=
  match e with
  | ApplicationError m => m
  | NodeOperationError m _ => m
  | PlainError m => m
  end.

Inductive result (A : Type) : Type :=
| Ok (a : A)
| Throw (e : jsError).
Arguments Ok {A} a.
Arguments Throw {A} e.

(** Sequencing: the first exception aborts what follows. *)
#[global] Instance result_bind : MBind result :=
  fun A B k r =>
    match r with
    | Ok a => k a
    | Throw e => Throw e
    end.
#[global] Instance result_ret : MRet result := fun A a => Ok a.

Definition isOk {A : Type} (r : result A) : bool :=
  match r with Ok _ => true | Throw _ => false end.

(** ** JavaScript strings *)

Module Js.

(** A string literal of the source, as code units. *)
Fixpoint lit (s : string) : jsstring :=
  match s with
  | EmptyString => []
  | String c s' => N_of_ascii c :: lit s'
  end.

Definition comma : N := 44%N.
Definition dash : N := 45%N.
Definition plus : N := 43%N.

(** ECMAScript [WhiteSpace] and [LineTerminator] code points: what
    [String.prototype.trim] and [parseInt] strip. *)
Definition isWhiteSpace (c : N) : bool :=
  ((9 <=? c) && (c <=? 13) || (c =? 32) || (c =? 160) || (c =? 5760)
   || (8192 <=? c) && (c <=? 8202) || (c =? 8232) || (c =? 8233)
   || (c =? 8239) || (c =? 8287) || (c =? 12288) || (c =? 65279))%N.

Fixpoint dropWhile (p : N -> bool) (s : jsstring) : jsstring :=
  match s with
  | [] => []
  | c :: s' => if p c then dropWhile p s' else s
  end.

Fixpoint takeWhile (p : N -> bool) (s : jsstring) : jsstring :=
  match s with
  | [] => []
  | c :: s' => if p c then c :: takeWhile p s' else []
  end.

Definition trimStart (s : jsstring) : jsstring := dropWhile isWhiteSpace s.
Definition trimEnd (s : jsstring) : jsstring :=
  rev (dropWhile isWhiteSpace (rev s)).
(** [s.trim()] *)
Definition trim (s : jsstring) : jsstring := trimEnd (trimStart s).

(** [s.includes(c)] for a one-character needle. *)
Definition includes (c : N) (s : jsstring) : bool := existsb (N.eqb c) s.

(** How many times the character [c] occurs in [s]. *)
Fixpoint occurrences (c : N) (s : jsstring) : nat :=
  match s with
  | [] => 0%nat
  | x :: s' => if (c =? x)%N then S (occurrences c s') else occurrences c s'
  end.

(** [s.split(sep)] for a one-character separator: never empty, the empty
    string splits to one empty piece. *)
Fixpoint split (sep : N) (s : jsstring) : list jsstring :=
  match s with
  | [] => [[]]
  | c :: s' =>
      if (c =? sep)%N then [] :: split sep s'
      else match split sep s' with
           | p :: ps => (c :: p) :: ps
           | [] => [[c]]
           end
  end.

Definition isDigit (c : N) : bool := ((48 <=? c) && (c <=? 57))%N.
Definition digitValue (c : N) : Z := Z.of_N (c - 48).

(** The mathematical value of a run of decimal digits. *)
Definition decimal (ds : jsstring) : Z :=
  fold_left (fun acc c => 10 * acc + digitValue c) ds 0.

(** [parseInt(s, 10)]: skip leading white space, read an optional sign,
    then the longest prefix of decimal digits; [NaN] (here [None]) when
    that prefix is empty.  Whatever follows the digits is ignored. *)
Definition parseInt (s : jsstring) : option Z :=
  let s0 := trimStart s in
  let '(sign, s1) :=
    match s0 with
    | c :: r =>
        if (c =? dash)%N then (-1, r)
        else if (c =? plus)%N then (1, r)
        else (1, s0)
    | [] => (1, s0)
    end in
  match takeWhile isDigit s1 with
  | [] => None
  | ds => Some (sign * decimal ds)
  end.

(** [String(n)] and template interpolation of an integer. *)
Definition ofZ (n : Z) : jsstring := lit (NilZero.string_of_int (Z.to_int n)).

(** Interpolation of a possibly [undefined] number. *)
Definition ofNumber (n : option Z) : jsstring :=
  match n with
  | Some z => ofZ z
  | None => lit "undefined"
  end.

(** [xs.includes(i)] on an array of numbers. *)
Definition arrayIncludes (i : Z) (xs : list Z) : bool := existsb (Z.eqb i) xs.

(** [xs.sort(compareFn)]: a stable merge sort that puts [a] before [b]
    when [compareFn a b <= 0]. *)
Definition sort (compareFn : Z -> Z -> Z) (xs : list Z) : list Z :=
  @merge_sort Z (fun a b => compareFn a b <= 0)
    (fun a b => decide (compareFn a b <= 0)) xs.

End Js.

(** ** The host's data: items, JSON values, binary attachments *)

Abbreviation bytes := (list Byte.byte).

Section HostData.
(** [H] is the type of the values the node only passes through and never
    inspects: the leaves of an item's JSON, the [scale] and [density]
    parameters (floating-point numbers). *)
Context {H : Type}.

Inductive jsval : Type :=
| VOpaque (h : H)
| VNum (n : Z)
| VUndefined
| VStr (s : jsstring)
| VBool (b : bool)
| VBuffer (b : bytes)
| VArr (xs : list jsval)
| VObj (fields : list (jsstring * jsval)).

(** A number that may be [undefined]. *)
Definition VNumber (n : option Z) : jsval :=
  match n with
  | Some z => VNum z
  | None => VUndefined
  end.

(** [IBinaryData]: one binary attachment, its data base64-encoded. *)
Record IBinaryData : Type := {
  bd_data : jsstring;
  bd_mimeType : jsstring;
  bd_fileName : jsstring;
  bd_fileExtension : jsstring
}.

(** [INodeExecutionData]: an input or output item.  The attachments of an
    input item are reached through the host's helpers only. *)
Record INodeExecutionData : Type := {
  json : gmap jsstring jsval;
  binary : option (gmap jsstring IBinaryData);
  error : option jsError;
  pairedItem : option nat
}.
End HostData.
Arguments jsval H : clear implicits.
Arguments IBinaryData : clear implicits.
Arguments INodeExecutionData H : clear implicits.

(** ** The in-memory node (pdf-img-convert) *)

Module InMemory.
Import Js.

(** [if (!pages.includes(i)) pages.push(i)] *)
Definition pushIfAbsent (pages : list Z) (i : Z) : list Z :=
  if arrayIncludes i pages then pages else pages ++ [i].

(** [for (let i = start; i <= end; i++) { push i if absent }] *)
Definition pushRange (pages : list Z) (start end_ : Z) : list Z :=
  fold_left pushIfAbsent (seqZ start (end_ - start + 1)) pages.

(** The body of the loop over the comma-separated parts. *)
Definition parsePart (pages : list Z) (part : jsstring) : result (list Z) :=
  let trimmed := trim part in
  if includes dash trimmed then
    let bounds := map (fun n => parseInt (trim n)) (split dash trimmed) in
    match nth 0 bounds None, nth 1 bounds None with
    | Some start, Some end_ =>
        if (start >? end_) || (start <? 1)
        then Throw (ApplicationError (lit "Invalid page range: " ++ trimmed))
        else Ok (pushRange pages start end_)
    | _, _ => Throw (ApplicationError (lit "Invalid page range: " ++ trimmed))
    end
  else
    match parseInt trimmed with
    | Some pageNum =>
        if pageNum <? 1
        then Throw (ApplicationError (lit "Invalid page number: " ++ trimmed))
        else Ok (pushIfAbsent pages pageNum)
    | None => Throw (ApplicationError (lit "Invalid page number: " ++ trimmed))
    end.

Fixpoint parseParts (pages : list Z) (parts : list jsstring)
  : result (list Z) :=
  match parts with
  | [] => Ok pages
  | part :: rest => pages' ← parsePart pages part; parseParts pages' rest
  end.

(** [PdfConvert.parsePageNumbers] *)
Definition parsePageNumbers (pagesParam : jsstring) : result (list Z) :=
  pages ← parseParts [] (split comma pagesParam);
  Ok (sort (fun a b => a - b) pages).

(** *** The item loop of [execute] *)

(** [const conversionOptions = { scale, base64: false, page_numbers }] *)
Record conversionOptions (H : Type) : Type := {
  co_scale : H;
  co_base64 : bool;
  co_page_numbers : option (list Z)
}.
Arguments co_scale {H} _.
Arguments co_base64 {H} _.
Arguments co_page_numbers {H} _.

(** The node parameters of one item, as the casts of the source type
    them ([this.getNodeParameter(name, itemIndex) as ...]). *)
Record params (H : Type) : Type := {
  inputType : jsstring;
  outputFormat : jsstring;
  scale : H;
  pagesParam : jsstring;
  outputPropertyName : jsstring;
  binaryPropertyName : jsstring;
  base64Data : jsstring
}.
Arguments inputType {H} _.
Arguments outputFormat {H} _.
Arguments scale {H} _.
Arguments pagesParam {H} _.
Arguments outputPropertyName {H} _.
Arguments binaryPropertyName {H} _.
Arguments base64Data {H} _.

(** The collaborators of [execute]: the workflow host ([this]), Node's
    [Buffer] and the pdf-img-convert library.  They are not part of the
    repository and are taken as they come. *)
Record Host (H : Type) : Type := {
  getInputData : list (INodeExecutionData H);
  getNodeParameter : nat -> params H;
  assertBinaryData : nat -> jsstring -> result unit;
  getBinaryDataBuffer : nat -> jsstring -> result bytes;
  continueOnFail : bool;
  (** [Buffer.from(s, 'base64')]: total, it never throws. *)
  Buffer_from_base64 : jsstring -> bytes;
  (** [buf.toString('base64')] *)
  Buffer_toString_base64 : bytes -> jsstring;
  (** [await import('pdf-img-convert')], before the loop. *)
  import_pdf2img : result unit;
  (** [pdf2img.convert(pdfBuffer, conversionOptions)] *)
  pdf2img_convert : bytes -> conversionOptions H -> result (list bytes)
}.
Arguments getInputData {H} _.
Arguments getNodeParameter {H} _ _.
Arguments assertBinaryData {H} _ _ _.
Arguments getBinaryDataBuffer {H} _ _ _.
Arguments continueOnFail {H} _.
Arguments Buffer_from_base64 {H} _ _.
Arguments Buffer_toString_base64 {H} _ _.
Arguments import_pdf2img {H} _.
Arguments pdf2img_convert {H} _ _ _.

(** One element of the [images] array. *)
Record image : Type := {
  data : bytes;
  mimeType : jsstring;
  fileName : jsstring;
  fileExtension : jsstring;
  pageNumber : option Z
}.

Section Execute.
Context {H : Type} (h : Host H).

(** "Get PDF data based on input type". *)
Definition resolvePdfBuffer (itemIndex : nat) (p : params H) : result bytes :=
  if bool_decide (inputType p = lit "binaryData") then
    _ ← assertBinaryData h itemIndex (binaryPropertyName p);
    getBinaryDataBuffer h itemIndex (binaryPropertyName p)
  else if bool_decide (inputType p = lit "base64") then
    if bool_decide (base64Data p = []) then
      Throw (NodeOperationError
               (lit "Base64 data is required when input type is base64")
               (Some itemIndex))
    else Ok (Buffer_from_base64 h (base64Data p))
  else
    Throw (NodeOperationError
             (lit "Unknown input type: " ++ inputType p) (Some itemIndex)).

(** "Parse pages parameter": the parser runs only when the trimmed
    expression is not empty; otherwise [pageNumbers] stays [undefined]. *)
Definition parsePagesParam (p : params H) : result (option (list Z)) :=
  if bool_decide (trim (pagesParam p) = []) then Ok None
  else pageNumbers ← parsePageNumbers (pagesParam p); Ok (Some pageNumbers).

(** [outputImages.map((imageData, index) => ...)] *)
Definition toImages (fmt : jsstring) (pageNumbers : option (list Z))
    (outputImages : list bytes) : list image :=
  imap (fun index imageData =>
          let pageNumber :=
            match pageNumbers with
            | Some pns => pns !! index
            | None => Some (Z.of_nat index + 1)
            end in
          {| data := imageData;
             mimeType := if bool_decide (fmt = lit "png")
                         then lit "image/png" else lit "image/jpeg";
             fileName := lit "page_" ++ ofNumber pageNumber ++ lit "." ++ fmt;
             fileExtension := fmt;
             pageNumber := pageNumber |})
       outputImages.

(** The call to the backend and the tagging of what it returns. *)
Definition convertImages (p : params H) (pdfBuffer : bytes)
    (pageNumbers : option (list Z)) : result (list image) :=
  outputImages ← pdf2img_convert h pdfBuffer
                   {| co_scale := scale p; co_base64 := false;
                      co_page_numbers := pageNumbers |};
  Ok (toImages (outputFormat p) pageNumbers outputImages).

Definition imageVal (im : image) : jsval H :=
  VObj [ (lit "data", VBuffer (data im));
         (lit "mimeType", VStr (mimeType im));
         (lit "fileName", VStr (fileName im));
         (lit "fileExtension", VStr (fileExtension im));
         (lit "pageNumber", VNumber (pageNumber im)) ].

(** [images.forEach(image => outputItem.binary[...] = {...})] *)
Definition attachImages (outputPropertyName : jsstring) (images : list image)
  : gmap jsstring IBinaryData :=
  fold_left
    (fun acc im =>
       <[ outputPropertyName ++ lit "_page_" ++ ofNumber (pageNumber im) :=
            {| bd_data := Buffer_toString_base64 h (data im);
               bd_mimeType := mimeType im;
               bd_fileName := fileName im;
               bd_fileExtension := fileExtension im |} ]> acc)
    images ∅.

(** "Create output item". *)
Definition outputItem (item : INodeExecutionData H) (p : params H)
    (images : list image) : INodeExecutionData H :=
  {| json :=
       <[ lit "scale" := VOpaque (scale p) ]>
       (<[ lit "outputFormat" := VStr (outputFormat p) ]>
       (<[ lit "totalPages" := VNum (Z.of_nat (length images)) ]>
       (<[ outputPropertyName p := VArr (map imageVal images) ]>
          (json item))));
     binary := Some (attachImages (outputPropertyName p) images);
     error := None;
     pairedItem := None |}.

Definition conversionErrorMessage (conversionError : jsError) : jsstring :=
  lit "PDF conversion failed: " ++ message conversionError ++
  lit ". This might be due to missing Canvas dependencies. Please ensure the n8n container has the required system dependencies installed.".

(** The record pushed by the inner [catch (conversionError)]. *)
Definition conversionErrorItem (itemIndex : nat)
    (item : INodeExecutionData H) (conversionError : jsError)
  : INodeExecutionData H :=
  {| json :=
       <[ lit "originalError" := VStr (message conversionError) ]>
       (<[ lit "error" := VStr (conversionErrorMessage conversionError) ]>
          (json item));
     binary := None;
     error := Some conversionError;
     pairedItem := Some itemIndex |}.

(** The inner [try { convert ... } catch (conversionError) { ... }]. *)
Definition convertItem (itemIndex : nat) (item : INodeExecutionData H)
    (p : params H) (pdfBuffer : bytes) (pageNumbers : option (list Z))
  : result (INodeExecutionData H) :=
  match convertImages p pdfBuffer pageNumbers with
  | Ok images => Ok (outputItem item p images)
  | Throw conversionError =>
      if continueOnFail h
      then Ok (conversionErrorItem itemIndex item conversionError)
      else Throw (NodeOperationError
                    (conversionErrorMessage conversionError)
                    (Some itemIndex))
  end.

(** The body of the outer [try]. *)
Definition itemBody (itemIndex : nat) (item : INodeExecutionData H)
  : result (INodeExecutionData H) :=
  let p := getNodeParameter h itemIndex in
  pdfBuffer ← resolvePdfBuffer itemIndex p;
  pageNumbers ← parsePagesParam p;
  convertItem itemIndex item p pdfBuffer pageNumbers.

(** The record pushed by the outer [catch (error)]. *)
Definition errorItem (itemIndex : nat) (item : INodeExecutionData H)
    (e : jsError) : INodeExecutionData H :=
  {| json := <[ lit "error" := VStr (message e) ]> (json item);
     binary := None;
     error := Some e;
     pairedItem := Some itemIndex |}.

(** One turn of the loop: the outer [try ... catch (error)].  Only a
    [NodeOperationError] has a [context]; it is re-thrown with its
    [itemIndex] set, any other error is wrapped. *)
Definition processItem (itemIndex : nat) (item : INodeExecutionData H)
  : result (INodeExecutionData H) :=
  match itemBody itemIndex item with
  | Ok out => Ok out
  | Throw e =>
      if continueOnFail h then Ok (errorItem itemIndex item e)
      else match e with
           | NodeOperationError m _ =>
               Throw (NodeOperationError m (Some itemIndex))
           | _ => Throw (NodeOperationError (message e) (Some itemIndex))
           end
  end.

(** [for (let itemIndex = 0; itemIndex < items.length; itemIndex++)] *)
Fixpoint itemLoop (itemIndex : nat) (items : list (INodeExecutionData H))
    (returnData : list (INodeExecutionData H))
  : result (list (INodeExecutionData H)) :=
  match items with
  | [] => Ok returnData
  | item :: rest =>
      out ← processItem itemIndex item;
      itemLoop (S itemIndex) rest (returnData ++ [out])
  end.

(** [execute]: the library is loaded, the items are processed in order,
    and [[returnData]] is returned.  The optional canvas set-up before the
    loop catches its own failure and only logs a warning; it is left out. *)
Definition execute : result (list (list (INodeExecutionData H))) :=
  _ ← import_pdf2img h;
  returnData ← itemLoop 0 (getInputData h) [];
  Ok [returnData].
End Execute.

End InMemory.

(** ** The file-based node (pdf2pic) *)

Module FileBased.
Import Js.

(** [s.includes(needle)] for a string needle. *)
Fixpoint startsWith (needle s : jsstring) : bool :=
  match needle, s with
  | [], _ => true
  | _ :: _, [] => false
  | a :: needle', b :: s' => (a =? b)%N && startsWith needle' s'
  end.

Fixpoint includesStr (needle s : jsstring) : bool :=
  startsWith needle s ||
  match s with
  | [] => false
  | _ :: s' => includesStr needle s'
  end.

(** *** The file system *)

Inductive fsCall : Type :=
| WriteFile (path : jsstring)
| ReadFile (path : jsstring)
| Unlink (path : jsstring).

(** The files on disk and the calls made so far, oldest first. *)
Record world : Type := {
  files : gmap jsstring bytes;
  trace : list fsCall
}.

Definition logCall (c : fsCall) (w : world) : world :=
  {| files := files w; trace := trace w ++ [c] |}.

(** A computation that reads and changes the disk and may throw. *)
Definition fsM (A : Type) : Type := world -> world * result A.

#[global] Instance fsM_ret : MRet fsM := fun A a w => (w, Ok a).
#[global] Instance fsM_bind : MBind fsM :=
  fun A B k m w =>
    match m w with
    | (w', Ok a) => k a w'
    | (w', Throw e) => (w', Throw e)
    end.

Definition throw {A : Type} (e : jsError) : fsM A := fun w => (w, Throw e).
Definition liftResult {A : Type} (r : result A) : fsM A := fun w => (w, r).

(** [try { m } catch (cleanupError) { }] *)
Definition ignoreErrors (m : fsM unit) : fsM unit :=
  fun w => (fst (m w), Ok tt).

(** [try { m } finally { cleanup }], for a [cleanup] that does not throw. *)
Definition tryFinally {A : Type} (m : fsM A) (cleanup : fsM unit) : fsM A :=
  fun w =>
    let '(w1, r) := m w in
    (fst (cleanup w1), r).

(** One page result of [convert.bulk]: pdf2pic's [WriteImageResponse];
    both fields are optional. *)
Record convertResult : Type := {
  path : option jsstring;
  page : option Z
}.

Record params (H : Type) : Type := {
  binaryPropertyName : jsstring;
  format : jsstring;
  density : H;
  outputProperty : jsstring
}.
Arguments binaryPropertyName {H} _.
Arguments format {H} _.
Arguments density {H} _.
Arguments outputProperty {H} _.

(** The collaborators: the workflow host, Node's [os], [fs], [Date] and
    [Buffer], and pdf2pic.  [fsFault c w] tells whether the file-system
    call [c], made in the world [w], fails for a reason of its own
    (permissions, a busy file, a full disk), and with which error.
    [bulk tempPdfPath savePath density format] is the loading of pdf2pic
    followed by [fromPath(tempPdfPath, {...}).bulk(-1)]: it may write files
    and returns the page results or throws. *)
Record Host (H : Type) : Type := {
  getInputData : list (INodeExecutionData H);
  getNodeParameter : nat -> params H;
  assertBinaryData : nat -> jsstring -> result unit;
  getBinaryDataBuffer : nat -> jsstring -> result bytes;
  continueOnFail : bool;
  tmpdir : jsstring;
  Date_now : nat -> Z;
  fsFault : fsCall -> world -> option jsError;
  bulk : jsstring -> jsstring -> H -> jsstring ->
         gmap jsstring bytes -> gmap jsstring bytes * result (list convertResult);
  Buffer_toString_base64 : bytes -> jsstring
}.
Arguments getInputData {H} _.
Arguments getNodeParameter {H} _ _.
Arguments assertBinaryData {H} _ _ _.
Arguments getBinaryDataBuffer {H} _ _ _.
Arguments continueOnFail {H} _.
Arguments tmpdir {H} _.
Arguments Date_now {H} _ _.
Arguments fsFault {H} _ _ _.
Arguments bulk {H} _ _ _ _ _ _.
Arguments Buffer_toString_base64 {H} _ _.

(** One element of the [images] array. *)
Record image : Type := {
  data : bytes;
  mimeType : jsstring;
  fileName : jsstring;
  pageNumber : Z
}.

Section Execute.
Context {H : Type} (h : Host H).

Definition enoent (syscall path : jsstring) : jsError :=
  PlainError (lit "ENOENT: no such file or directory, " ++ syscall ++
              lit " '" ++ path ++ lit "'").

(** [fs.promises.writeFile(path, buf)]; a failed write creates nothing. *)
Definition writeFile (path : jsstring) (buf : bytes) : fsM unit :=
  fun w =>
    let w' := logCall (WriteFile path) w in
    match fsFault h (WriteFile path) w with
    | Some e => (w', Throw e)
    | None => ({| files := <[ path := buf ]> (files w'); trace := trace w' |},
               Ok tt)
    end.

(** [fs.promises.readFile(path)] *)
Definition readFile (path : jsstring) : fsM bytes :=
  fun w =>
    let w' := logCall (ReadFile path) w in
    match fsFault h (ReadFile path) w with
    | Some e => (w', Throw e)
    | None =>
        match files w !! path with
        | Some buf => (w', Ok buf)
        | None => (w', Throw (enoent (lit "open") path))
        end
    end.

(** [fs.promises.unlink(path)] *)
Definition unlink (path : jsstring) : fsM unit :=
  fun w =>
    let w' := logCall (Unlink path) w in
    match fsFault h (Unlink path) w with
    | Some e => (w', Throw e)
    | None =>
        match files w !! path with
        | Some _ => ({| files := delete path (files w'); trace := trace w' |},
                     Ok tt)
        | None => (w', Throw (enoent (lit "unlink") path))
        end
    end.

(** [convert.bulk(-1)] run on the disk. *)
Definition runBulk (tempPdfPath : jsstring) (p : params H)
  : fsM (list convertResult) :=
  fun w =>
    let '(fs', r) := bulk h tempPdfPath (tmpdir h) (density p) (format p)
                       (files w) in
    ({| files := fs'; trace := trace w |}, r).

(** [path.join(tempDir, name)], for the directory [os.tmpdir()] returns
    (no trailing separator). *)
Definition path_join (dir name : jsstring) : jsstring :=
  dir ++ lit "/" ++ name.

(** The truthy value of [result.path]: a defined, non-empty string. *)
Definition truthyPath (r : convertResult) : option jsstring :=
  match path r with
  | Some (c :: s) => Some (c :: s)
  | _ => None
  end.

(** [result.page || 1] *)
Definition pageOr1 (r : convertResult) : Z :=
  match page r with
  | Some n => if n =? 0 then 1 else n
  | None => 1
  end.

(** [for (const result of results) { if (result.path) {...} }] *)
Fixpoint processResults (fmt : jsstring) (results : list convertResult)
    (images : list image) : fsM (list image) :=
  match results with
  | [] => mret images
  | r :: rest =>
      match truthyPath r with
      | Some resultPath =>
          imageBuffer ← readFile resultPath;
          let images' :=
            images ++
            [ {| data := imageBuffer;
                 mimeType := if bool_decide (fmt = lit "png")
                             then lit "image/png" else lit "image/jpeg";
                 fileName := lit "page_" ++ ofNumber (page r) ++ lit "." ++ fmt;
                 pageNumber := pageOr1 r |} ] in
          _ ← ignoreErrors (unlink resultPath);
          processResults fmt rest images'
      | None => processResults fmt rest images
      end
  end.

(** "Add images as binary data". *)
Definition attachImages (p : params H) (images : list image)
  : gmap jsstring IBinaryData :=
  fold_left
    (fun acc im =>
       <[ outputProperty p ++ lit "_page_" ++ ofZ (pageNumber im) :=
            {| bd_data := Buffer_toString_base64 h (data im);
               bd_mimeType := mimeType im;
               bd_fileName := fileName im;
               bd_fileExtension := format p |} ]> acc)
    images ∅.

(** "Create output". *)
Definition outputItem (item : INodeExecutionData H) (p : params H)
    (pdfBuffer : bytes) (images : list image) : INodeExecutionData H :=
  {| json :=
       <[ outputProperty p :=
            VObj [ (lit "totalPages", VNum (Z.of_nat (length images)));
                   (lit "format", VStr (format p));
                   (lit "density", VOpaque (density p));
                   (lit "pdfSize", VNum (Z.of_nat (length pdfBuffer))) ] ]>
         (json item);
     binary := Some (attachImages p images);
     error := None;
     pairedItem := None |}.

(** The block guarded by [finally]. *)
Definition convertFromPath (item : INodeExecutionData H) (p : params H)
    (pdfBuffer : bytes) (tempPdfPath : jsstring)
  : fsM (INodeExecutionData H) :=
  results ← runBulk tempPdfPath p;
  images ← processResults (format p) results [];
  mret (outputItem item p pdfBuffer images).

Definition tempPdfPath (itemIndex : nat) : jsstring :=
  path_join (tmpdir h)
    (lit "pdf_" ++ ofZ (Date_now h itemIndex) ++ lit "_" ++
     ofZ (Z.of_nat itemIndex) ++ lit ".pdf").

(** The body of the outer [try]: one conversion call. *)
Definition itemBody (itemIndex : nat) (item : INodeExecutionData H)
  : fsM (INodeExecutionData H) :=
  let p := getNodeParameter h itemIndex in
  _ ← liftResult (assertBinaryData h itemIndex (binaryPropertyName p));
  pdfBuffer ← liftResult (getBinaryDataBuffer h itemIndex (binaryPropertyName p));
  _ ← writeFile (tempPdfPath itemIndex) pdfBuffer;
  tryFinally
    (convertFromPath item p pdfBuffer (tempPdfPath itemIndex))
    (ignoreErrors (unlink (tempPdfPath itemIndex))).

(** "Enhanced error handling". *)
Definition enhancedMessage (e : jsError) : jsstring :=
  if includesStr (lit "pdf2pic") (message e)
  then lit "PDF conversion failed: " ++ message e ++
       lit ". Make sure GraphicsMagick or ImageMagick is installed in your system."
  else message e.

Definition errorItem (itemIndex : nat) (item : INodeExecutionData H)
    (e : jsError) : INodeExecutionData H :=
  {| json := <[ lit "conversionFailed" := VBool true ]>
             (<[ lit "error" := VStr (enhancedMessage e) ]> (json item));
     binary := None;
     error := None;
     pairedItem := Some itemIndex |}.

(** One turn of the loop: [try { itemBody } catch (error) { ... }]. *)
Definition processItem (itemIndex : nat) (item : INodeExecutionData H)
  : fsM (INodeExecutionData H) :=
  fun w =>
    match itemBody itemIndex item w with
    | (w', Ok out) => (w', Ok out)
    | (w', Throw e) =>
        if continueOnFail h then (w', Ok (errorItem itemIndex item e))
        else (w', Throw (NodeOperationError (enhancedMessage e)
                           (Some itemIndex)))
    end.

Fixpoint itemLoop (itemIndex : nat) (items : list (INodeExecutionData H))
    (returnData : list (INodeExecutionData H))
  : fsM (list (INodeExecutionData H)) :=
  match items with
  | [] => mret returnData
  | item :: rest =>
      out ← processItem itemIndex item;
      itemLoop (S itemIndex) rest (returnData ++ [out])
  end.

Definition execute : fsM (list (list (INodeExecutionData H))) :=
  returnData ← itemLoop 0 (getInputData h) [];
  mret [returnData].
End Execute.

End FileBased.

(** ** Vocabulary of the statements *)

Module Spec.
Import Js InMemory.

(** What the loop keeps true of [pages]. *)
Definition pagesInv (pages : list Z) : Prop :=
  NoDup pages /\ Forall (fun x => 1 <= x) pages.

(** What may follow the digits that [parseInt] reads: nothing, or a
    character that is not a digit. *)
Definition stopsDigits (rest : jsstring) : Prop :=
  match rest with
  | [] => True
  | c :: _ => isDigit c = false
  end.

(** The outcome of a range token, from its two parsed bounds. *)
Definition rangeOutcome (pages : list Z) (trimmed : jsstring)
    (start end_ : option Z) : result (list Z) :=
  match start, end_ with
  | Some s, Some e =>
      if (s >? e) || (s <? 1)
      then Throw (ApplicationError (lit "Invalid page range: " ++ trimmed))
      else Ok (pushRange pages s e)
  | _, _ => Throw (ApplicationError (lit "Invalid page range: " ++ trimmed))
  end.

(** "Either bound fails to parse, or start > end, or start < 1". *)
Definition invalidRange (start end_ : option Z) : Prop :=
  start = None \/ end_ = None \/
  exists s e, start = Some s /\ end_ = Some e /\ (s > e \/ s < 1).

(** The contract of the rasterization library, as the node relies on it,
    for a document [pdf] of [P] pages: every page when no page list is
    given, and one image per requested page, in request order, when every
    requested page exists. *)
Definition rendersPages {H : Type} (h : Host H) (pdf : bytes) (P : nat)
  : Prop :=
  forall opts : conversionOptions H,
    match co_page_numbers opts with
    | None =>
        exists bufs, pdf2img_convert h pdf opts = Ok bufs /\ length bufs = P
    | Some sel =>
        Forall (fun n => 1 <= n <= Z.of_nat P) sel ->
        exists bufs, pdf2img_convert h pdf opts = Ok bufs /\
                     length bufs = length sel
    end.

(** Item [itemIndex] goes through the loop body without any exception and
    yields the normal output item [out]. *)
Definition convertsNormally {H : Type} (h : Host H) (itemIndex : nat)
    (item out : INodeExecutionData H) : Prop :=
  let p := getNodeParameter h itemIndex in
  exists pdfBuffer pageNumbers images,
    resolvePdfBuffer h itemIndex p = Ok pdfBuffer /\
    parsePagesParam p = Ok pageNumbers /\
    convertImages h p pdfBuffer pageNumbers = Ok images /\
    out = outputItem h item p images.

(** The pages a token stands for: a range token, every integer between
    its two parsed bounds; a single token, the integer it parses to. *)
Definition denotes (part : jsstring) (i : Z) : Prop :=
  if includes dash (trim part) then
    exists p0 p1 rest s e,
      split dash (trim part) = p0 :: p1 :: rest /\
      parseInt (trim p0) = Some s /\ parseInt (trim p1) = Some e /\
      s <= i <= e
  else parseInt (trim part) = Some i.

(** The token is one the parser accepts. *)
Definition accepted (part : jsstring) : bool := isOk (parsePart [] part).


(** The key and the value of the attachment of one image. *)
Definition attachmentKey (name : jsstring) (pageNumber : option Z) : jsstring :=
  name ++ lit "_page_" ++ ofNumber pageNumber.

Definition attachment {H : Type} (h : Host H) (im : image) : IBinaryData :=
  {| bd_data := Buffer_toString_base64 h (data im);
     bd_mimeType := mimeType im;
     bd_fileName := fileName im;
     bd_fileExtension := fileExtension im |}.

End Spec.

Module SpecFiles.
Import Js FileBased.

(** The page result reports a path the loop will read. *)
Definition hasPath (r : convertResult) : bool :=
  match truthyPath r with
  | Some _ => true
  | None => false
  end.

(** The file-system call [c] is a read or an unlink of the path [q]. *)
Definition touches (c : fsCall) (q : jsstring) : Prop :=
  c = ReadFile q \/ c = Unlink q.

(** The error message names pdf2pic somewhere. *)
Definition mentionsPdf2pic (e : jsError) : Prop :=
  exists pre post, message e = pre ++ lit "pdf2pic" ++ post.

(** The key and the value of the attachment of one image. *)
Definition attachmentKey (name : jsstring) (pageNumber : Z) : jsstring :=
  name ++ lit "_page_" ++ ofZ pageNumber.

Definition attachment {H : Type} (h : Host H) (p : params H) (im : image)
  : IBinaryData :=
  {| bd_data := Buffer_toString_base64 h (data im);
     bd_mimeType := mimeType im;
     bd_fileName := fileName im;
     bd_fileExtension := format p |}.

(** The image the loop builds for the page result [r], read from the
    disk [fs]. *)
Definition imageOf (fmt : jsstring) (fs : gmap jsstring bytes)
    (r : convertResult) (im : image) : Prop :=
  exists q,
    truthyPath r = Some q /\
    fs !! q = Some (data im) /\
    mimeType im = (if bool_decide (fmt = lit "png")
                   then lit "image/png" else lit "image/jpeg") /\
    fileName im = lit "page_" ++ ofNumber (page r) ++ lit "." ++ fmt /\
    pageNumber im = pageOr1 r.

(** The paths the loop will read. *)
Definition reportedPaths (results : list convertResult) : list jsstring :=
  omap truthyPath results.

End SpecFiles.

(** ** Concrete hosts, for the examples *)

Module Demo.
Import Js.

Definition emptyItem : INodeExecutionData Z :=
  {| json := ∅; binary := None; error := None; pairedItem := None |}.

(** The items carry a binary attachment, but for item 2 (index 1), which
    gives an unreadable base64 text, and for the indices 3 and 4, whose
    parameters are an empty base64 text and an unknown input type. *)
Definition binaryParams : InMemory.params Z :=
  {| InMemory.inputType := lit "binaryData";
     InMemory.outputFormat := lit "png";
     InMemory.scale := 2;
     InMemory.pagesParam := lit "";
     InMemory.outputPropertyName := lit "images";
     InMemory.binaryPropertyName := lit "data";
     InMemory.base64Data := lit "" |}.

Definition base64Params (text pages : string) : InMemory.params Z :=
  {| InMemory.inputType := lit "base64";
     InMemory.outputFormat := lit "png";
     InMemory.scale := 2;
     InMemory.pagesParam := lit pages;
     InMemory.outputPropertyName := lit "images";
     InMemory.binaryPropertyName := lit "data";
     InMemory.base64Data := lit text |}.

(** Parameters with an input type the node does not know. *)
Definition urlParams : InMemory.params Z :=
  {| InMemory.inputType := lit "url";
     InMemory.outputFormat := lit "png";
     InMemory.scale := 2;
     InMemory.pagesParam := lit "";
     InMemory.outputPropertyName := lit "images";
     InMemory.binaryPropertyName := lit "data";
     InMemory.base64Data := lit "" |}.

(** A backend for which a document has as many pages as it has bytes, the
    empty document is unreadable, and a page outside the document is
    refused. *)
Definition demoConvert (pdf : bytes) (opts : InMemory.conversionOptions Z)
  : result (list bytes) :=
  match pdf with
  | [] => Throw (PlainError (lit "Invalid PDF structure"))
  | _ :: _ =>
      match InMemory.co_page_numbers opts with
      | None => Ok (map (fun b => [b]) pdf)
      | Some sel =>
          if forallb (fun n => (1 <=? n) && (n <=? Z.of_nat (length pdf))) sel
          then Ok (map (fun _ => []) sel)
          else Throw (PlainError (lit "Invalid page request"))
      end
  end.

Definition demoHost (continue : bool) : InMemory.Host Z :=
  {| InMemory.getInputData := [emptyItem; emptyItem; emptyItem];
     InMemory.getNodeParameter :=
       fun i =>
         match i with
         | 1%nat => base64Params "%%%" ""
         | 3%nat => base64Params "" ""
         | 4%nat => urlParams
         | _ => binaryParams
         end;
     InMemory.assertBinaryData := fun _ _ => Ok tt;
     InMemory.getBinaryDataBuffer := fun _ _ => Ok [Byte.x25; Byte.x50];
     InMemory.continueOnFail := continue;
     InMemory.Buffer_from_base64 := fun _ => [];
     InMemory.Buffer_toString_base64 := fun _ => [];
     InMemory.import_pdf2img := Ok tt;
     InMemory.pdf2img_convert := demoConvert |}.

(** A pdf2pic that renders two pages into [savePath] and reports a third
    result without a path. *)
Definition demoBulk (pdfPath savePath : jsstring) (density : Z)
    (format : jsstring) (fs : gmap jsstring bytes)
  : gmap jsstring bytes * result (list FileBased.convertResult) :=
  let page1 := savePath ++ lit "/page.1." ++ format in
  let page2 := savePath ++ lit "/page.2." ++ format in
  (<[ page2 := [Byte.x02] ]> (<[ page1 := [Byte.x01] ]> fs),
   Ok [ {| FileBased.path := Some page1; FileBased.page := Some 1 |};
        {| FileBased.path := None; FileBased.page := Some 3 |};
        {| FileBased.path := Some page2; FileBased.page := Some 2 |} ]).

Definition noFault (c : FileBased.fsCall) (w : FileBased.world)
  : option jsError := None.



Definition fileParams : FileBased.params Z :=
  {| FileBased.binaryPropertyName := lit "data";
     FileBased.format := lit "png";
     FileBased.density := 150;
     FileBased.outputProperty := lit "images" |}.

Definition fileHost (fault : FileBased.fsCall -> FileBased.world -> option jsError)
  : FileBased.Host Z :=
  {| FileBased.getInputData := [emptyItem];
     FileBased.getNodeParameter := fun _ => fileParams;
     FileBased.assertBinaryData := fun _ _ => Ok tt;
     FileBased.getBinaryDataBuffer := fun _ _ => Ok [Byte.x25; Byte.x50];
     FileBased.continueOnFail := false;
     FileBased.tmpdir := lit "/tmp";
     FileBased.Date_now := fun _ => 1700000000000;
     FileBased.fsFault := fault;
     FileBased.bulk := demoBulk;
     FileBased.Buffer_toString_base64 := fun _ => [] |}.

(** An empty disk. *)
Definition emptyDisk : FileBased.world :=
  {| FileBased.files := ∅; FileBased.trace := [] |}.

(** A host whose items all carry a binary attachment and the page
    expression [pages]. *)
Definition pagesHost (pages : string) (continue : bool) : InMemory.Host Z :=
  {| InMemory.getInputData := [emptyItem; emptyItem];
     InMemory.getNodeParameter :=
       fun _ =>
         {| InMemory.inputType := lit "binaryData";
            InMemory.outputFormat := lit "jpg";
            InMemory.scale := 2;
            InMemory.pagesParam := lit pages;
            InMemory.outputPropertyName := lit "images";
            InMemory.binaryPropertyName := lit "data";
            InMemory.base64Data := lit "" |};
     InMemory.assertBinaryData := fun _ _ => Ok tt;
     InMemory.getBinaryDataBuffer := fun _ _ => Ok [Byte.x25; Byte.x50];
     InMemory.continueOnFail := continue;
     InMemory.Buffer_from_base64 := fun _ => [];
     InMemory.Buffer_toString_base64 := fun _ => [];
     InMemory.import_pdf2img := Ok tt;
     InMemory.pdf2img_convert := demoConvert |}.

(** The file-based host in continue-on-failure mode. *)
Definition fileHostContinue
    (fault : FileBased.fsCall -> FileBased.world -> option jsError)
  : FileBased.Host Z :=
  {| FileBased.getInputData := [emptyItem; emptyItem];
     FileBased.getNodeParameter := fun _ => fileParams;
     FileBased.assertBinaryData := fun _ _ => Ok tt;
     FileBased.getBinaryDataBuffer := fun _ _ => Ok [Byte.x25; Byte.x50];
     FileBased.continueOnFail := true;
     FileBased.tmpdir := lit "/tmp";
     FileBased.Date_now := fun _ => 1700000000000;
     FileBased.fsFault := fault;
     FileBased.bulk := demoBulk;
     FileBased.Buffer_toString_base64 := fun _ => [] |}.



End Demo.


(* ===================================================================== *)
(** * Part II. Properties                                                 *)
(* ===================================================================== *)

(** ** The page-range parser *)

Section ParserFacts.
Import Js InMemory Spec.

Lemma arrayIncludes_elem_of (i : Z) (xs : list Z) :
  arrayIncludes i xs = true <-> i ∈ xs.
Proof.
  unfold arrayIncludes. rewrite existsb_exists. split.
  - intros (x & Hin & Heq). apply Z.eqb_eq in Heq. subst x.
    now apply list_elem_of_In.
  - intros Hin. exists i. split; [now apply list_elem_of_In | apply Z.eqb_refl].
Qed.

Lemma pushIfAbsent_elem_of (pages : list Z) (i x : Z) :
  x ∈ pushIfAbsent pages i <-> x ∈ pages \/ x = i.
Proof.
  unfold pushIfAbsent. destruct (arrayIncludes i pages) eqn:E.
  - apply arrayIncludes_elem_of in E. split; [auto | intros [?| ->]; auto].
  - rewrite elem_of_app, list_elem_of_singleton. tauto.
Qed.

Lemma pushIfAbsent_NoDup (pages : list Z) (i : Z) :
  NoDup pages -> NoDup (pushIfAbsent pages i).
Proof.
  intros Hnd. unfold pushIfAbsent. destruct (arrayIncludes i pages) eqn:E; [done|].
  apply NoDup_app. split; [done|]. split; [|apply NoDup_singleton].
  intros x Hx Hx'. apply list_elem_of_singleton in Hx'. subst x.
  apply arrayIncludes_elem_of in Hx. congruence.
Qed.

Lemma pushAll_elem_of (xs pages : list Z) (x : Z) :
  x ∈ fold_left pushIfAbsent xs pages <-> x ∈ pages \/ x ∈ xs.
Proof.
  revert pages. induction xs as [|i xs IH]; intros pages; simpl.
  - rewrite elem_of_nil. tauto.
  - rewrite IH, pushIfAbsent_elem_of, elem_of_cons. tauto.
Qed.

Lemma pushAll_NoDup (xs pages : list Z) :
  NoDup pages -> NoDup (fold_left pushIfAbsent xs pages).
Proof.
  revert pages. induction xs as [|i xs IH]; intros pages Hnd; simpl; [done|].
  apply IH. now apply pushIfAbsent_NoDup.
Qed.

Lemma pushRange_elem_of (pages : list Z) (s e x : Z) :
  x ∈ pushRange pages s e <-> x ∈ pages \/ s <= x <= e.
Proof.
  unfold pushRange. rewrite pushAll_elem_of, elem_of_seqZ.
  split; (intros [?|?]; [left; done | right; lia]).
Qed.

Lemma pushRange_NoDup (pages : list Z) (s e : Z) :
  NoDup pages -> NoDup (pushRange pages s e).
Proof. apply pushAll_NoDup. Qed.

Lemma parsePart_inv (pages pages' : list Z) (part : jsstring) :
  pagesInv pages -> parsePart pages part = Ok pages' -> pagesInv pages'.
Proof.
  intros [Hnd Hpos]. unfold parsePart.
  destruct (includes dash (trim part)).
  - destruct (nth 0 _ None) as [s|]; [|discriminate].
    destruct (nth 1 _ None) as [e|]; [|discriminate].
    destruct ((s >? e) || (s <? 1)) eqn:Hbad; [discriminate|].
    intros [= <-]. apply orb_false_iff in Hbad as [_ Hs].
    apply Z.ltb_ge in Hs. split; [now apply pushRange_NoDup|].
    apply Forall_forall. intros x Hx. apply pushRange_elem_of in Hx as [Hx|Hx].
    + rewrite Forall_forall in Hpos. now apply Hpos.
    + lia.
  - destruct (parseInt (trim part)) as [n|]; [|discriminate].
    destruct (n <? 1) eqn:Hn; [discriminate|].
    intros [= <-]. apply Z.ltb_ge in Hn. split; [now apply pushIfAbsent_NoDup|].
    apply Forall_forall. intros x Hx. apply pushIfAbsent_elem_of in Hx as [Hx| ->].
    + rewrite Forall_forall in Hpos. now apply Hpos.
    + done.
Qed.

Lemma parseParts_inv (parts : list jsstring) (pages pages' : list Z) :
  pagesInv pages -> parseParts pages parts = Ok pages' -> pagesInv pages'.
Proof.
  revert pages. induction parts as [|part rest IH]; intros pages Hinv; simpl.
  - now intros [= <-].
  - destruct (parsePart pages part) as [pages1|e] eqn:E; simpl; [|discriminate].
    apply IH. eapply parsePart_inv; eauto.
Qed.

#[local] Instance compare_total : Total (fun a b : Z => a - b <= 0).
Proof. intros a b. lia. Qed.

#[local] Instance compare_trans : Transitive (fun a b : Z => a - b <= 0).
Proof. intros a b c. lia. Qed.

Lemma sort_Permutation (xs : list Z) : sort (fun a b => a - b) xs ≡ₚ xs.
Proof. unfold sort. apply merge_sort_Permutation. Qed.

Lemma sort_ascending (xs : list Z) :
  StronglySorted Z.le (sort (fun a b => a - b) xs).
Proof.
  unfold sort.
  pose proof (@StronglySorted_merge_sort Z (fun a b : Z => a - b <= 0)
                (fun a b => decide (a - b <= 0)) _ _ xs) as Hs.
  induction Hs as [|x l Hl IH Hx]; constructor; [done|].
  eapply Forall_impl; [exact Hx|]. intros y Hy. simpl in Hy. lia.
Qed.

Lemma ascending_NoDup_strict (xs : list Z) :
  StronglySorted Z.le xs -> NoDup xs -> StronglySorted Z.lt xs.
Proof.
  induction 1 as [|x l Hl IH Hx]; intros Hnd; constructor.
  - apply IH. now apply NoDup_cons in Hnd.
  - apply NoDup_cons in Hnd as [Hx' _].
    rewrite Forall_forall in Hx |- *. intros y Hy.
    assert (x <> y) by (intros ->; done).
    specialize (Hx y Hy). lia.
Qed.
End ParserFacts.

Section ParserSplit.
Import Js InMemory Spec.

Lemma includes_elem_of (c : N) (s : jsstring) : includes c s = true <-> c ∈ s.
Proof.
  unfold includes. rewrite existsb_exists. split.
  - intros (x & Hin & Heq). apply N.eqb_eq in Heq. subst x.
    now apply list_elem_of_In.
  - intros Hin. exists c. split; [now apply list_elem_of_In | apply N.eqb_refl].
Qed.

Lemma split_nonempty (sep : N) (s : jsstring) : split sep s <> [].
Proof.
  destruct s as [|c s]; simpl; [done|].
  destruct (c =? sep)%N; [done|]. now destruct (split sep s).
Qed.

(** A string without the separator is its own single piece. *)
Lemma split_without (sep : N) (s : jsstring) :
  includes sep s = false -> split sep s = [s].
Proof.
  induction s as [|c s IH]; simpl; [done|].
  intros Hinc. apply orb_false_iff in Hinc as [Hc Hs].
  rewrite N.eqb_sym, Hc, (IH Hs). done.
Qed.

(** A piece without the separator, followed by the separator, is the first
    piece of the split. *)
Lemma split_app_sep (sep : N) (p s : jsstring) :
  includes sep p = false -> split sep (p ++ sep :: s) = p :: split sep s.
Proof.
  induction p as [|c p IH]; simpl.
  - intros _. now rewrite N.eqb_refl.
  - intros Hinc. apply orb_false_iff in Hinc as [Hc Hp].
    rewrite N.eqb_sym, Hc, (IH Hp). done.
Qed.

(** A string with the separator splits into two pieces at least. *)
Lemma split_with (sep : N) (s : jsstring) :
  includes sep s = true ->
  exists p0 p1 rest, split sep s = p0 :: p1 :: rest.
Proof.
  induction s as [|c s IH]; simpl; [discriminate|].
  rewrite N.eqb_sym. destruct (c =? sep)%N eqn:Hc; simpl.
  - intros _. destruct (split sep s) as [|q qs] eqn:E.
    + now apply split_nonempty in E.
    + now exists [], q, qs.
  - intros Hs. destruct (IH Hs) as (p0 & p1 & rest & ->).
    now exists (c :: p0), p1, rest.
Qed.

(** The pieces of a split do not contain the separator. *)
Lemma split_pieces_without (sep : N) (s p : jsstring) :
  p ∈ split sep s -> includes sep p = false.
Proof.
  revert p. induction s as [|c s IH]; simpl; intros p Hp.
  - apply list_elem_of_singleton in Hp. now subst p.
  - destruct (c =? sep)%N eqn:Hc.
    + apply elem_of_cons in Hp as [-> | Hp]; [done | now apply IH].
    + destruct (split sep s) as [|q qs] eqn:E.
      * apply list_elem_of_singleton in Hp. subst p. simpl.
        now rewrite N.eqb_sym, Hc.
      * apply elem_of_cons in Hp as [-> | Hp].
        -- simpl. rewrite N.eqb_sym, Hc. simpl. apply IH. left.
        -- apply IH. now right.
Qed.

(** A token whose trimmed text splits on dashes into at least two pieces is
    a range over the first two; the other pieces play no role. *)
Lemma parsePart_range (pages : list Z) (part p0 p1 : jsstring)
    (rest : list jsstring) :
  split dash (trim part) = p0 :: p1 :: rest ->
  parsePart pages part =
  rangeOutcome pages (trim part) (parseInt (trim p0)) (parseInt (trim p1)).
Proof.
  intros Hsplit. unfold parsePart, rangeOutcome.
  destruct (includes dash (trim part)) eqn:Hinc.
  - rewrite Hsplit. simpl. done.
  - apply split_without in Hinc. rewrite Hinc in Hsplit. discriminate.
Qed.


Lemma rangeOutcome_ok (pages : list Z) (trimmed : jsstring) (s e : Z) :
  s <= e -> 1 <= s ->
  rangeOutcome pages trimmed (Some s) (Some e) = Ok (pushRange pages s e).
Proof.
  intros Hse Hs. unfold rangeOutcome.
  replace (s >? e) with false by (symmetry; rewrite Z.gtb_ltb; now apply Z.ltb_ge).
  replace (s <? 1) with false by (symmetry; now apply Z.ltb_ge).
  done.
Qed.

(** Whether a token is accepted does not depend on the pages seen so far. *)
Lemma parsePart_isOk (pages pages' : list Z) (part : jsstring) :
  isOk (parsePart pages part) = isOk (parsePart pages' part).
Proof.
  unfold parsePart. destruct (includes dash (trim part)).
  - destruct (nth 0 _ None); [|done]. destruct (nth 1 _ None); [|done].
    now destruct (_ || _).
  - destruct (parseInt (trim part)); [|done]. now destruct (_ <? _).
Qed.




End ParserSplit.

Section ParseIntFacts.
Import Js InMemory Spec.

Lemma isDigit_range (c : N) : isDigit c = true <-> (48 <= c <= 57)%N.
Proof.
  unfold isDigit. rewrite andb_true_iff, !N.leb_le. tauto.
Qed.

Lemma digit_not_space (c : N) : isDigit c = true -> isWhiteSpace c = false.
Proof.
  intros Hc. apply isDigit_range in Hc. unfold isWhiteSpace.
  repeat (apply orb_false_iff; split);
    try (apply N.eqb_neq; lia);
    apply andb_false_iff; rewrite !N.leb_gt; lia.
Qed.

Lemma digit_not_sign (c : N) :
  isDigit c = true -> (c =? dash)%N = false /\ (c =? plus)%N = false.
Proof.
  intros Hc. apply isDigit_range in Hc. unfold dash, plus.
  split; apply N.eqb_neq; lia.
Qed.

Lemma takeWhile_digits (ds rest : jsstring) :
  forallb isDigit ds = true -> stopsDigits rest ->
  takeWhile isDigit (ds ++ rest) = ds.
Proof.
  intros Hds Hrest. induction ds as [|d ds IH]; simpl in *.
  - destruct rest as [|c rest]; [done|]. simpl in *. now rewrite Hrest.
  - apply andb_true_iff in Hds as [Hd Hds]. rewrite Hd, (IH Hds). done.
Qed.

(** [parseInt] reads the leading digits and drops the rest of the string. *)
Lemma parseInt_truncates (ds rest : jsstring) :
  ds <> [] -> forallb isDigit ds = true -> stopsDigits rest ->
  parseInt (ds ++ rest) = Some (decimal ds).
Proof.
  intros Hne Hds Hrest. destruct ds as [|d ds]; [done|].
  pose proof Hds as Hds'. simpl in Hds'. apply andb_true_iff in Hds' as [Hd _].
  unfold parseInt, trimStart. simpl dropWhile.
  rewrite (digit_not_space d Hd).
  destruct (digit_not_sign d Hd) as [-> ->].
  change (d :: ds ++ rest) with ((d :: ds) ++ rest).
  rewrite (takeWhile_digits (d :: ds) rest Hds Hrest).
  f_equal. now destruct (decimal (d :: ds)).
Qed.
End ParseIntFacts.

Section ParserClaims.
Import Js InMemory Spec.

(** C1: the parser on the examples of the specification: "1,2,3" gives
    [1,2,3], "1-5" gives [1,2,3,4,5], "1,3-5,7" gives [1,3,4,5,7],
    "1,1,2-3,3" gives [1,2,3]; "5-2", "0-3" and "abc" are rejected with the
    parser's invalid-range / invalid-page-number error. *)
Theorem C1_parse_examples :
  parsePageNumbers (lit "1,2,3") = Ok [1; 2; 3] /\
  parsePageNumbers (lit "1-5") = Ok [1; 2; 3; 4; 5] /\
  parsePageNumbers (lit "1,3-5,7") = Ok [1; 3; 4; 5; 7] /\
  parsePageNumbers (lit "1,1,2-3,3") = Ok [1; 2; 3] /\
  parsePageNumbers (lit "5-2") =
    Throw (ApplicationError (lit "Invalid page range: 5-2")) /\
  parsePageNumbers (lit "0-3") =
    Throw (ApplicationError (lit "Invalid page range: 0-3")) /\
  parsePageNumbers (lit "abc") =
    Throw (ApplicationError (lit "Invalid page number: abc")).
Proof. repeat split; vm_compute; reflexivity. Qed.

(** C2: whenever the parser succeeds, the list it returns is strictly
    ascending, has no duplicate, and holds only integers >= 1. *)
Theorem C2_parse_strictly_ascending (expr : jsstring) (pages : list Z) :
  parsePageNumbers expr = Ok pages ->
  StronglySorted Z.lt pages /\ NoDup pages /\ Forall (fun x => 1 <= x) pages.
Proof.
  unfold parsePageNumbers. intros Hparse.
  destruct (parseParts [] (split comma expr)) as [raw|e] eqn:Hraw;
    simpl in Hparse; [|discriminate].
  injection Hparse as <-.
  assert (pagesInv raw) as [Hnd Hpos].
  { eapply parseParts_inv; [|exact Hraw]. split; constructor. }
  pose proof (sort_Permutation raw) as Hperm.
  assert (NoDup (sort (fun a b => a - b) raw)) as Hnd'
    by (now rewrite Hperm).
  split; [|split].
  - apply ascending_NoDup_strict; [apply sort_ascending | exact Hnd'].
  - exact Hnd'.
  - now rewrite Hperm.
Qed.

Lemma C2_parse_strictly_ascending_witness :
  StronglySorted Z.lt [1; 3; 4; 5; 7] /\ NoDup [1; 3; 4; 5; 7] /\
  Forall (fun x => 1 <= x) [1; 3; 4; 5; 7].
Proof.
  apply (C2_parse_strictly_ascending (lit "7,3-5,1, 4")).
  vm_compute. reflexivity.
Defined.
Lemma split_length (sep : N) (s : jsstring) :
  length (split sep s) = S (occurrences sep s).
Proof.
  induction s as [|c s IH]; simpl; [done|].
  rewrite (N.eqb_sym sep c). destruct (c =? sep)%N; simpl.
  - now rewrite IH.
  - destruct (split sep s) as [|q qs] eqn:E; [now apply split_nonempty in E|].
    simpl in *. done.
Qed.

Lemma valid_bounds (start end_ : option Z) :
  ~ invalidRange start end_ ->
  exists s e, start = Some s /\ end_ = Some e /\ s <= e /\ 1 <= s.
Proof.
  unfold invalidRange. intros Hv.
  destruct start as [s|]; [|exfalso; auto].
  destruct end_ as [e|]; [|exfalso; auto].
  exists s, e. split; [done|]. split; [done|].
  destruct (Z_le_gt_dec s e) as [Hse|Hse], (Z_le_gt_dec 1 s) as [Hs|Hs];
    try done; exfalso; apply Hv; right; right; exists s, e;
    (split; [done|split; [done|lia]]).
Qed.



(** C8: [parseInt] stops at the first character that is not a digit, so a
    token that starts with digits is accepted whatever follows them:
    "3abc" gives [3], "2.5" gives [2], and the bounds of a range are cut the
    same way ("1x-3.9" gives [1,2,3]). *)
Theorem C8_leading_digits_accepted :
  parsePageNumbers (lit "3abc") = Ok [3] /\
  parsePageNumbers (lit "2.5") = Ok [2] /\
  parsePageNumbers (lit "1x-3.9") = Ok [1; 2; 3] /\
  (forall ds rest : jsstring,
     ds <> [] -> forallb isDigit ds = true -> stopsDigits rest ->
     parseInt (ds ++ rest) = Some (decimal ds)) /\
  (forall (pages : list Z) (part ds rest : jsstring),
     includes dash (trim part) = false ->
     trim part = ds ++ rest ->
     ds <> [] -> forallb isDigit ds = true -> stopsDigits rest ->
     1 <= decimal ds ->
     parsePart pages part = Ok (pushIfAbsent pages (decimal ds))) /\
  (forall (pages : list Z) (part p0 p1 : jsstring) (others : list jsstring)
          (ds0 rest0 ds1 rest1 : jsstring),
     split dash (trim part) = p0 :: p1 :: others ->
     trim p0 = ds0 ++ rest0 -> trim p1 = ds1 ++ rest1 ->
     ds0 <> [] -> forallb isDigit ds0 = true -> stopsDigits rest0 ->
     ds1 <> [] -> forallb isDigit ds1 = true -> stopsDigits rest1 ->
     parsePart pages part =
     rangeOutcome pages (trim part) (Some (decimal ds0)) (Some (decimal ds1))).
Proof.
  split; [vm_compute; reflexivity|].
  split; [vm_compute; reflexivity|].
  split; [vm_compute; reflexivity|].
  split; [exact parseInt_truncates|]. split.
  - intros pages part ds rest Hinc Htrim Hne Hds Hrest Hpos.
    unfold parsePart. rewrite Hinc, Htrim, (parseInt_truncates ds rest Hne Hds Hrest).
    replace (decimal ds <? 1) with false by (symmetry; now apply Z.ltb_ge).
    done.
  - intros pages part p0 p1 others ds0 rest0 ds1 rest1 Hsplit H0 H1
      Hne0 Hds0 Hr0 Hne1 Hds1 Hr1.
    rewrite (parsePart_range pages part p0 p1 others Hsplit), H0, H1.
    now rewrite (parseInt_truncates ds0 rest0 Hne0 Hds0 Hr0),
      (parseInt_truncates ds1 rest1 Hne1 Hds1 Hr1).
Qed.

Lemma C8_leading_digits_accepted_witness :
  parseInt (lit "25" ++ lit ".5") = Some 25 /\
  parsePart [7] (lit " 3abc") = Ok [7; 3] /\
  parsePart [] (lit "1x-3.9") = Ok [1; 2; 3].
Proof.
  destruct C8_leading_digits_accepted as (_ & _ & _ & Hint & Hsingle & Hrange).
  split; [|split].
  - apply (Hint (lit "25") (lit ".5")); [discriminate | reflexivity | reflexivity].
  - apply (Hsingle [7] (lit " 3abc") (lit "3") (lit "abc"));
      [reflexivity | reflexivity | discriminate | reflexivity | reflexivity
      | vm_compute; discriminate].
  - apply (Hrange [] (lit "1x-3.9") (lit "1x") (lit "3.9") [] (lit "1") (lit "x")
             (lit "3") (lit ".9"));
      [reflexivity | reflexivity | reflexivity | discriminate | reflexivity
      | reflexivity | discriminate | reflexivity | reflexivity].
Defined.

(** C9, as the code has it: a token with two or more dashes is split on
    every dash into three pieces or more; only the first two are parsed as
    bounds and the others are ignored, so the token is accepted or rejected
    as the range of its first two pieces: "1-2-3" gives [1,2].  (It is still
    rejected when those two pieces are not a valid range.) *)
Theorem C9_extra_pieces_ignored (pages : list Z) (part : jsstring) :
  (2 <= occurrences dash (trim part))%nat ->
  parsePageNumbers (lit "1-2-3") = Ok [1; 2] /\
  exists p0 p1 p2 others,
    split dash (trim part) = p0 :: p1 :: p2 :: others /\
    parsePart pages part =
    rangeOutcome pages (trim part) (parseInt (trim p0)) (parseInt (trim p1)) /\
    (~ invalidRange (parseInt (trim p0)) (parseInt (trim p1)) ->
     isOk (parsePart pages part) = true).
Proof.
  intros Hdashes. split; [vm_compute; reflexivity|].
  pose proof (split_length dash (trim part)) as Hlen.
  destruct (split dash (trim part)) as [|p0 [|p1 [|p2 others]]] eqn:Hsplit;
    simpl in Hlen; try lia.
  exists p0, p1, p2, others. split; [done|].
  pose proof (parsePart_range pages part p0 p1 (p2 :: others) Hsplit) as Hpart.
  split; [exact Hpart|].
  intros Hv. destruct (valid_bounds _ _ Hv) as (s & e & Hs & He & Hse & H1).
  rewrite Hpart, Hs, He, rangeOutcome_ok; done.
Qed.

Lemma C9_extra_pieces_ignored_witness :
  parsePageNumbers (lit "1-2-3") = Ok [1; 2] /\
  exists p0 p1 p2 others,
    split dash (trim (lit "4-6-9-x")) = p0 :: p1 :: p2 :: others /\
    parsePart [5] (lit "4-6-9-x") =
    rangeOutcome [5] (trim (lit "4-6-9-x")) (parseInt (trim p0)) (parseInt (trim p1)) /\
    (~ invalidRange (parseInt (trim p0)) (parseInt (trim p1)) ->
     isOk (parsePart [5] (lit "4-6-9-x")) = true).
Proof.
  apply (C9_extra_pieces_ignored [5] (lit "4-6-9-x")). vm_compute. lia.
Defined.

(** C9 as stated fails: "3-1-2" has two dashes and the parser rejects it,
    because its first two pieces give start > end. *)
Lemma C9_counterexample :
  (2 <= occurrences dash (trim (lit "3-1-2")))%nat /\
  parsePageNumbers (lit "3-1-2") =
  Throw (ApplicationError (lit "Invalid page range: 3-1-2")).
Proof. split; [vm_compute; lia | vm_compute; reflexivity]. Qed.
End ParserClaims.

(** ** The in-memory node *)

Section InMemoryClaims.
Import Js InMemory Spec.
Context {H : Type} (h : Host H).

Lemma toImages_length (fmt : jsstring) (pageNumbers : option (list Z))
    (outputImages : list bytes) :
  length (toImages fmt pageNumbers outputImages) = length outputImages.
Proof. unfold toImages. apply length_imap. Qed.

Lemma toImages_lookup_pageNumber (fmt : jsstring) (pageNumbers : option (list Z))
    (outputImages : list bytes) (index : nat) :
  (index < length outputImages)%nat ->
  pageNumber <$> (toImages fmt pageNumbers outputImages !! index) =
  Some (match pageNumbers with
        | Some pns => pns !! index
        | None => Some (Z.of_nat index + 1)
        end).
Proof.
  intros Hlt. unfold toImages. rewrite list_lookup_imap.
  destruct (lookup_lt_is_Some_2 outputImages index Hlt) as [buf ->]. done.
Qed.

(** Without a page list the images are numbered 1, 2, 3, ... *)
Lemma toImages_sequential (fmt : jsstring) (outputImages : list bytes) :
  pageNumber <$> toImages fmt None outputImages =
  Some <$> seqZ 1 (Z.of_nat (length outputImages)).
Proof.
  apply list_eq. intros i. rewrite !list_lookup_fmap.
  destruct (decide (i < length outputImages)%nat) as [Hlt|Hge].
  - rewrite (toImages_lookup_pageNumber fmt None outputImages i Hlt).
    rewrite lookup_seqZ_lt by lia. simpl. do 2 f_equal. lia.
  - rewrite lookup_seqZ_ge by lia.
    rewrite (lookup_ge_None_2 (toImages fmt None outputImages) i); [done|].
    rewrite toImages_length. lia.
Qed.

(** With a page list of the same length the images carry its numbers. *)
Lemma toImages_requested (fmt : jsstring) (sel : list Z)
    (outputImages : list bytes) :
  length outputImages = length sel ->
  pageNumber <$> toImages fmt (Some sel) outputImages = Some <$> sel.
Proof.
  intros Hlen. apply list_eq. intros i. rewrite !list_lookup_fmap.
  destruct (decide (i < length outputImages)%nat) as [Hlt|Hge].
  - rewrite (toImages_lookup_pageNumber fmt (Some sel) outputImages i Hlt).
    destruct (lookup_lt_is_Some_2 sel i) as [n ->]; [lia | done].
  - rewrite (lookup_ge_None_2 sel i) by lia.
    rewrite (lookup_ge_None_2 (toImages fmt (Some sel) outputImages) i); [done|].
    rewrite toImages_length. lia.
Qed.

Lemma resolve_base64 (itemIndex : nat) (p : params H) :
  inputType p = lit "base64" ->
  resolvePdfBuffer h itemIndex p =
  if bool_decide (base64Data p = [])
  then Throw (NodeOperationError
                (lit "Base64 data is required when input type is base64")
                (Some itemIndex))
  else Ok (Buffer_from_base64 h (base64Data p)).
Proof.
  intros Hmode. unfold resolvePdfBuffer. rewrite Hmode.
  rewrite (bool_decide_eq_false_2 (lit "base64" = lit "binaryData"))
    by (intros Heq; vm_compute in Heq; discriminate).
  now rewrite (bool_decide_eq_true_2 (lit "base64" = lit "base64")).
Qed.

Lemma processItem_normal (itemIndex : nat) (item out : INodeExecutionData H) :
  convertsNormally h itemIndex item out -> processItem h itemIndex item = Ok out.
Proof.
  intros (pdfBuffer & pageNumbers & images & Hpdf & Hsel & Himg & ->).
  unfold processItem, itemBody. rewrite Hpdf. simpl. rewrite Hsel. simpl.
  unfold convertItem. now rewrite Himg.
Qed.

(** The loop body on an item whose base64 text decodes to bytes that the
    backend refuses. *)
Lemma itemBody_unreadable (itemIndex : nat) (item : INodeExecutionData H)
    (pageNumbers : option (list Z)) (conversionError : jsError) :
  let p := getNodeParameter h itemIndex in
  inputType p = lit "base64" -> base64Data p <> [] ->
  parsePagesParam p = Ok pageNumbers ->
  pdf2img_convert h (Buffer_from_base64 h (base64Data p))
    {| co_scale := scale p; co_base64 := false;
       co_page_numbers := pageNumbers |} = Throw conversionError ->
  itemBody h itemIndex item =
  if continueOnFail h
  then Ok (conversionErrorItem itemIndex item conversionError)
  else Throw (NodeOperationError (conversionErrorMessage conversionError)
                (Some itemIndex)).
Proof.
  intros p Hmode Hdata Hsel Hconv. unfold itemBody. fold p.
  rewrite (resolve_base64 itemIndex p Hmode), bool_decide_eq_false_2 by done.
  simpl. rewrite Hsel. simpl. unfold convertItem, convertImages.
  now rewrite Hconv.
Qed.

Lemma processItem_unreadable (itemIndex : nat) (item : INodeExecutionData H)
    (pageNumbers : option (list Z)) (conversionError : jsError) :
  let p := getNodeParameter h itemIndex in
  inputType p = lit "base64" -> base64Data p <> [] ->
  parsePagesParam p = Ok pageNumbers ->
  pdf2img_convert h (Buffer_from_base64 h (base64Data p))
    {| co_scale := scale p; co_base64 := false;
       co_page_numbers := pageNumbers |} = Throw conversionError ->
  processItem h itemIndex item =
  if continueOnFail h
  then Ok (conversionErrorItem itemIndex item conversionError)
  else Throw (NodeOperationError (conversionErrorMessage conversionError)
                (Some itemIndex)).
Proof.
  intros p Hmode Hdata Hsel Hconv. unfold processItem.
  rewrite (itemBody_unreadable itemIndex item pageNumbers conversionError
             Hmode Hdata Hsel Hconv).
  now destruct (continueOnFail h).
Qed.

Lemma itemLoop_step_ok (itemIndex : nat) (item out : INodeExecutionData H)
    (rest returnData : list (INodeExecutionData H)) :
  processItem h itemIndex item = Ok out ->
  itemLoop h itemIndex (item :: rest) returnData =
  itemLoop h (S itemIndex) rest (returnData ++ [out]).
Proof. intros Hok. simpl. now rewrite Hok. Qed.

Lemma itemLoop_step_throw (itemIndex : nat) (item : INodeExecutionData H)
    (rest returnData : list (INodeExecutionData H)) (e : jsError) :
  processItem h itemIndex item = Throw e ->
  itemLoop h itemIndex (item :: rest) returnData = Throw e.
Proof. intros Hthrow. simpl. now rewrite Hthrow. Qed.

Lemma execute_loaded :
  import_pdf2img h = Ok tt ->
  execute h = (returnData ← itemLoop h 0 (getInputData h) []; Ok [returnData]).
Proof. intros Himport. unfold execute. now rewrite Himport. Qed.

(** C3: for a document of P pages, an empty selection (which is what an
    empty or blank page expression gives, the parser not being called)
    yields exactly P images numbered 1, 2, ..., P; a selection of K distinct
    pages of the document yields exactly K images, each carrying the page
    number requested at its position. *)
Theorem C3_conversion_count (p : params H) (pdf : bytes) (P : nat) :
  rendersPages h pdf P ->
  (trim (pagesParam p) = [] -> parsePagesParam p = Ok None) /\
  (exists images,
     convertImages h p pdf None = Ok images /\
     length images = P /\
     pageNumber <$> images = Some <$> seqZ 1 (Z.of_nat P)) /\
  (forall sel : list Z,
     NoDup sel -> Forall (fun n => 1 <= n <= Z.of_nat P) sel ->
     exists images,
       convertImages h p pdf (Some sel) = Ok images /\
       length images = length sel /\
       pageNumber <$> images = Some <$> sel).
Proof.
  intros Hbackend. split; [|split].
  - intros Hblank. unfold parsePagesParam. now rewrite bool_decide_eq_true_2.
  - destruct (Hbackend {| co_scale := scale p; co_base64 := false;
                          co_page_numbers := None |}) as (bufs & Hconv & Hlen).
    exists (toImages (outputFormat p) None bufs). unfold convertImages.
    rewrite Hconv. simpl. split; [done|]. rewrite toImages_length.
    split; [done|]. rewrite toImages_sequential. now rewrite Hlen.
  - intros sel _ Hvalid.
    destruct (Hbackend {| co_scale := scale p; co_base64 := false;
                          co_page_numbers := Some sel |} Hvalid)
      as (bufs & Hconv & Hlen).
    exists (toImages (outputFormat p) (Some sel) bufs). unfold convertImages.
    rewrite Hconv. simpl. split; [done|]. rewrite toImages_length.
    split; [done|]. now apply toImages_requested.
Qed.

(** C4: a batch of three items whose second item gives a non-empty base64
    text that the backend cannot read, the other two converting normally.
    In continue-on-failure mode the run returns three items in input order,
    the second being an error record: the fields of the input item plus the
    error message (and the backend's own message), with [pairedItem] set to
    the item index.  In fail-fast mode the run throws on the second item,
    the error carrying its index, and returns nothing. *)
Theorem C4_failure_policy (item1 item2 item3 out1 out3 : INodeExecutionData H)
    (pageNumbers2 : option (list Z)) (conversionError : jsError) :
  let p2 := getNodeParameter h 1 in
  import_pdf2img h = Ok tt ->
  getInputData h = [item1; item2; item3] ->
  convertsNormally h 0 item1 out1 ->
  convertsNormally h 2 item3 out3 ->
  inputType p2 = lit "base64" -> base64Data p2 <> [] ->
  parsePagesParam p2 = Ok pageNumbers2 ->
  pdf2img_convert h (Buffer_from_base64 h (base64Data p2))
    {| co_scale := scale p2; co_base64 := false;
       co_page_numbers := pageNumbers2 |} = Throw conversionError ->
  let record := conversionErrorItem 1 item2 conversionError in
  (continueOnFail h = true ->
   execute h = Ok [[out1; record; out3]] /\
   pairedItem record = Some 1%nat /\
   json record !! lit "error" =
     Some (VStr (conversionErrorMessage conversionError)) /\
   json record !! lit "originalError" = Some (VStr (message conversionError)) /\
   (forall key, key <> lit "error" -> key <> lit "originalError" ->
                json record !! key = json item2 !! key)) /\
  (continueOnFail h = false ->
   execute h = Throw (NodeOperationError
                        (conversionErrorMessage conversionError) (Some 1%nat))).
Proof.
  intros p2 Himport Hitems H1 H3 Hmode Hdata Hsel Hconv record.
  pose proof (processItem_unreadable 1 item2 pageNumbers2 conversionError
                Hmode Hdata Hsel Hconv) as H2.
  apply processItem_normal in H1, H3.
  split; intros Hmode'; rewrite Hmode' in H2.
  - split.
    + rewrite (execute_loaded Himport), Hitems.
      rewrite (itemLoop_step_ok _ _ _ _ _ H1), (itemLoop_step_ok _ _ _ _ _ H2),
        (itemLoop_step_ok _ _ _ _ _ H3).
      done.
    + split; [done|]. unfold record, conversionErrorItem. simpl.
      split; [|split].
      * rewrite lookup_insert_ne by (intros Heq; vm_compute in Heq; discriminate).
        apply lookup_insert_eq.
      * apply lookup_insert_eq.
      * intros key Hk1 Hk2. now rewrite !lookup_insert_ne.
  - rewrite (execute_loaded Himport), Hitems.
    rewrite (itemLoop_step_ok _ _ _ _ _ H1), (itemLoop_step_throw _ _ _ _ _ H2).
    done.
Qed.

(** C7: in base64 mode an empty text is refused; a mode other than the two
    known ones is refused as unknown; a non-empty text, well formed or not,
    is not refused: it is decoded, and the decoded bytes are what the
    conversion is called with. *)
Theorem C7_source_resolution (itemIndex : nat) (item : INodeExecutionData H) :
  let p := getNodeParameter h itemIndex in
  (inputType p = lit "base64" -> base64Data p = [] ->
   resolvePdfBuffer h itemIndex p =
   Throw (NodeOperationError
            (lit "Base64 data is required when input type is base64")
            (Some itemIndex))) /\
  (inputType p <> lit "binaryData" -> inputType p <> lit "base64" ->
   resolvePdfBuffer h itemIndex p =
   Throw (NodeOperationError (lit "Unknown input type: " ++ inputType p)
            (Some itemIndex))) /\
  (inputType p = lit "base64" -> base64Data p <> [] ->
   resolvePdfBuffer h itemIndex p = Ok (Buffer_from_base64 h (base64Data p)) /\
   forall pageNumbers,
     parsePagesParam p = Ok pageNumbers ->
     itemBody h itemIndex item =
     convertItem h itemIndex item p (Buffer_from_base64 h (base64Data p))
       pageNumbers).
Proof.
  intros p. split; [|split].
  - intros Hmode Hdata. rewrite (resolve_base64 itemIndex p Hmode).
    now rewrite bool_decide_eq_true_2.
  - intros Hb Hb64. unfold resolvePdfBuffer.
    now rewrite !bool_decide_eq_false_2.
  - intros Hmode Hdata.
    assert (resolvePdfBuffer h itemIndex p =
            Ok (Buffer_from_base64 h (base64Data p))) as Hres.
    { rewrite (resolve_base64 itemIndex p Hmode).
      now rewrite bool_decide_eq_false_2. }
    split; [exact Hres|]. intros pageNumbers Hsel.
    unfold itemBody. fold p. rewrite Hres. simpl. rewrite Hsel. done.
Qed.
End InMemoryClaims.

Section InMemoryExamples.
Import Js InMemory Spec Demo.

Lemma demoHost_rendersPages (continue : bool) :
  rendersPages (demoHost continue) [Byte.x25; Byte.x50] 2.
Proof.
  intros opts. destruct (co_page_numbers opts) as [sel|] eqn:Hsel.
  - intros Hvalid. exists (map (fun _ => []) sel).
    simpl. unfold demoConvert. rewrite Hsel.
    replace (forallb _ sel) with true; [now rewrite length_map|].
    symmetry. apply forallb_forall. intros n Hn.
    rewrite Forall_forall in Hvalid. apply list_elem_of_In in Hn.
    specialize (Hvalid n Hn). simpl in Hvalid.
    apply andb_true_iff. rewrite !Z.leb_le. simpl. lia.
  - exists [[Byte.x25]; [Byte.x50]]. simpl. unfold demoConvert.
    now rewrite Hsel.
Qed.

Lemma C3_conversion_count_witness :
  (trim (pagesParam binaryParams) = [] -> parsePagesParam binaryParams = Ok None) /\
  (exists images,
     convertImages (demoHost true) binaryParams [Byte.x25; Byte.x50] None
       = Ok images /\
     length images = 2%nat /\
     pageNumber <$> images = Some <$> seqZ 1 (Z.of_nat 2)) /\
  (forall sel : list Z,
     NoDup sel -> Forall (fun n => 1 <= n <= Z.of_nat 2) sel ->
     exists images,
       convertImages (demoHost true) binaryParams [Byte.x25; Byte.x50] (Some sel)
         = Ok images /\
       length images = length sel /\
       pageNumber <$> images = Some <$> sel).
Proof.
  apply (C3_conversion_count (demoHost true) binaryParams [Byte.x25; Byte.x50] 2).
  apply demoHost_rendersPages.
Defined.

Lemma demoHost_convertsNormally (continue : bool) (itemIndex : nat) :
  itemIndex = 0%nat \/ itemIndex = 2%nat ->
  convertsNormally (demoHost continue) itemIndex emptyItem
    (outputItem (demoHost continue) emptyItem binaryParams
       (toImages (lit "png") None [[Byte.x25]; [Byte.x50]])).
Proof.
  intros [-> | ->];
    (exists [Byte.x25; Byte.x50], None,
       (toImages (lit "png") None [[Byte.x25]; [Byte.x50]]);
     repeat split; reflexivity).
Qed.

Lemma C4_failure_policy_witness :
  (exists out1 record out3,
     execute (demoHost true) = Ok [[out1; record; out3]] /\
     error out1 = None /\ error out3 = None /\
     pairedItem record = Some 1%nat /\
     json record !! lit "error" =
       Some (VStr (conversionErrorMessage
                     (PlainError (lit "Invalid PDF structure"))))) /\
  execute (demoHost false) =
  Throw (NodeOperationError
           (conversionErrorMessage (PlainError (lit "Invalid PDF structure")))
           (Some 1%nat)).
Proof.
  split.
  - destruct (C4_failure_policy (demoHost true) emptyItem emptyItem emptyItem
                _ _ None (PlainError (lit "Invalid PDF structure"))
                eq_refl eq_refl
                (demoHost_convertsNormally true 0 (or_introl eq_refl))
                (demoHost_convertsNormally true 2 (or_intror eq_refl))
                eq_refl ltac:(discriminate) eq_refl eq_refl)
      as [Hcontinue _].
    destruct (Hcontinue eq_refl) as (Hrun & Hpaired & Herror & _).
    eexists _, _, _. split; [exact Hrun|]. split; [reflexivity|].
    split; [reflexivity|]. split; [exact Hpaired | exact Herror].
  - destruct (C4_failure_policy (demoHost false) emptyItem emptyItem emptyItem
                _ _ None (PlainError (lit "Invalid PDF structure"))
                eq_refl eq_refl
                (demoHost_convertsNormally false 0 (or_introl eq_refl))
                (demoHost_convertsNormally false 2 (or_intror eq_refl))
                eq_refl ltac:(discriminate) eq_refl eq_refl)
      as [_ Hfailfast].
    exact (Hfailfast eq_refl).
Defined.

Lemma C7_source_resolution_witness :
  resolvePdfBuffer (demoHost true) 3 (getNodeParameter (demoHost true) 3) =
    Throw (NodeOperationError
             (lit "Base64 data is required when input type is base64")
             (Some 3%nat)) /\
  resolvePdfBuffer (demoHost true) 4 (getNodeParameter (demoHost true) 4) =
    Throw (NodeOperationError (lit "Unknown input type: url") (Some 4%nat)) /\
  resolvePdfBuffer (demoHost true) 1 (getNodeParameter (demoHost true) 1) =
    Ok (Buffer_from_base64 (demoHost true) (lit "%%%")) /\
  itemBody (demoHost true) 1 emptyItem =
    convertItem (demoHost true) 1 emptyItem (getNodeParameter (demoHost true) 1)
      (Buffer_from_base64 (demoHost true) (lit "%%%")) None.
Proof.
  split; [|split].
  - apply (proj1 (C7_source_resolution (demoHost true) 3 emptyItem));
      reflexivity.
  - apply (proj1 (proj2 (C7_source_resolution (demoHost true) 4 emptyItem)));
      intros Heq; vm_compute in Heq; discriminate.
  - destruct (proj2 (proj2 (C7_source_resolution (demoHost true) 1 emptyItem))
                eq_refl ltac:(discriminate)) as [Hres Hpass].
    split; [exact Hres|]. apply Hpass. reflexivity.
Defined.
End InMemoryExamples.

(** ** The file-based node *)

Section FileBasedFacts.
Import Js FileBased SpecFiles.
Context {H : Type} (h : Host H).

Lemma unlink_trace (q : jsstring) (w : world) :
  trace (fst (unlink h q w)) = trace w ++ [Unlink q].
Proof.
  unfold unlink. destruct (fsFault h (Unlink q) w); [done|].
  now destruct (files w !! q).
Qed.



Lemma readFile_files (q : jsstring) (w : world) :
  files (fst (readFile h q w)) = files w.
Proof.
  unfold readFile. destruct (fsFault h (ReadFile q) w); [done|].
  now destruct (files w !! q).
Qed.

Lemma readFile_trace (q : jsstring) (w : world) :
  trace (fst (readFile h q w)) = trace w ++ [ReadFile q].
Proof.
  unfold readFile. destruct (fsFault h (ReadFile q) w); [done|].
  now destruct (files w !! q).
Qed.

(** One turn of the loop over the page results, unfolded. *)
Lemma processResults_cons (fmt : jsstring) (r : convertResult)
    (rest : list convertResult) (images : list image) (w : world) :
  processResults h fmt (r :: rest) images w =
  match truthyPath r with
  | Some q =>
      match readFile h q w with
      | (w1, Ok imageBuffer) =>
          processResults h fmt rest
            (images ++
             [ {| data := imageBuffer;
                  mimeType := if bool_decide (fmt = lit "png")
                              then lit "image/png" else lit "image/jpeg";
                  fileName := lit "page_" ++ ofNumber (page r) ++ lit "." ++ fmt;
                  pageNumber := pageOr1 r |} ])
            (fst (unlink h q w1))
      | (w1, Throw e) => (w1, Throw e)
      end
  | None => processResults h fmt rest images w
  end.
Proof.
  simpl. destruct (truthyPath r) as [q|]; [|done].
  unfold mbind, fsM_bind. destruct (readFile h q w) as [w1 [buf|e]]; [|done].
  unfold ignoreErrors. done.
Qed.




(** A result without a path leaves the loop as it found it. *)
Lemma processResults_filter (fmt : jsstring) (results : list convertResult)
    (images : list image) (w : world) :
  processResults h fmt results images w =
  processResults h fmt (List.filter hasPath results) images w.
Proof.
  revert images w. induction results as [|r rest IH]; intros images w; [done|].
  cbn [List.filter]. unfold hasPath at 1.
  destruct (truthyPath r) as [q|] eqn:Hq.
  - rewrite !processResults_cons, Hq.
    destruct (readFile h q w) as [w1 [buf|e]]; [apply IH | done].
  - rewrite processResults_cons, Hq. apply IH.
Qed.

(** When the loop completes it has added one image per result with a
    path. *)
Lemma processResults_length (fmt : jsstring) (results : list convertResult)
    (images images' : list image) (w w' : world) :
  processResults h fmt results images w = (w', Ok images') ->
  length images' = (length images + length (List.filter hasPath results))%nat.
Proof.
  revert images w. induction results as [|r rest IH]; intros images w Hrun.
  - injection Hrun as _ <-. simpl. lia.
  - rewrite processResults_cons in Hrun. cbn [List.filter]. unfold hasPath at 1.
    destruct (truthyPath r) as [q|]; [|now apply (IH images w)].
    destruct (readFile h q w) as [w1 [buf|e]]; [|discriminate].
    apply IH in Hrun. rewrite Hrun, length_app. simpl. lia.
Qed.

(** Every call the loop makes is a read or an unlink of a reported path. *)
Lemma processResults_trace_only (fmt : jsstring) (results : list convertResult)
    (images : list image) (w : world) (c : fsCall) :
  c ∈ trace (fst (processResults h fmt results images w)) ->
  c ∈ trace w \/
  exists r q, r ∈ results /\ truthyPath r = Some q /\ touches c q.
Proof.
  revert images w. induction results as [|r rest IH]; intros images w Hc.
  - now left.
  - rewrite processResults_cons in Hc.
    destruct (truthyPath r) as [q|] eqn:Hq.
    + pose proof (readFile_trace q w) as Htrace.
      destruct (readFile h q w) as [w1 [buf|e]]; simpl in Htrace.
      * apply IH in Hc as [Hc | (r' & q' & Hin & Hq' & Ht)].
        -- rewrite unlink_trace, Htrace, !elem_of_app, !list_elem_of_singleton in Hc.
           destruct Hc as [[Hc | ->] | ->]; [now left | right | right];
             exists r, q; (split; [left|split; [done|]]); [left | right]; done.
        -- right. exists r', q'. split; [now right | done].
      * simpl in Hc. rewrite Htrace, elem_of_app, list_elem_of_singleton in Hc.
        destruct Hc as [Hc | ->]; [now left|].
        right. exists r, q. split; [left|split; [done|left]]; done.
    + apply IH in Hc as [Hc | (r' & q' & Hin & Hq' & Ht)]; [now left|].
      right. exists r', q'. split; [now right | done].
Qed.

(** The guarded block, when it returns normally. *)
Lemma convertFromPath_ok (item out : INodeExecutionData H) (p : params H)
    (pdfBuffer : bytes) (pdfPath : jsstring) (w w' : world) :
  convertFromPath h item p pdfBuffer pdfPath w = (w', Ok out) ->
  exists fs2 results images,
    bulk h pdfPath (tmpdir h) (density p) (format p) (files w) = (fs2, Ok results) /\
    processResults h (format p) results []
      {| files := fs2; trace := trace w |} = (w', Ok images) /\
    out = outputItem h item p pdfBuffer images.
Proof.
  unfold convertFromPath, mbind, fsM_bind, runBulk.
  destruct (bulk h pdfPath (tmpdir h) (density p) (format p) (files w))
    as [fs2 [results|e]]; [|discriminate].
  destruct (processResults h (format p) results [] _) as [w2 [images|e]] eqn:Hloop;
    [|discriminate].
  intros [= <- <-]. now exists fs2, results, images.
Qed.

(** One conversion call, once the host has handed over the document and
    the temporary PDF has been written. *)
Lemma itemBody_written (itemIndex : nat) (item : INodeExecutionData H)
    (w : world) (pdfBuffer : bytes) :
  let p := getNodeParameter h itemIndex in
  let pdf := tempPdfPath h itemIndex in
  assertBinaryData h itemIndex (binaryPropertyName p) = Ok tt ->
  getBinaryDataBuffer h itemIndex (binaryPropertyName p) = Ok pdfBuffer ->
  fsFault h (WriteFile pdf) w = None ->
  itemBody h itemIndex item w =
  let run := convertFromPath h item p pdfBuffer pdf
               {| files := <[ pdf := pdfBuffer ]> (files w);
                  trace := trace w ++ [WriteFile pdf] |} in
  (fst (unlink h pdf (fst run)), snd run).
Proof.
  intros p pdf Hassert Hbuf Hwrite.
  unfold itemBody, mbind, fsM_bind, liftResult. fold p. fold pdf.
  rewrite Hassert, Hbuf. unfold writeFile. rewrite Hwrite. simpl.
  unfold tryFinally, ignoreErrors.
  now destruct (convertFromPath h item p pdfBuffer pdf _) as [w2 r].
Qed.


(** C10: a page result without a (non-empty) path is skipped silently: the
    loop over the results behaves as if that result were not there (same
    images, same disk, same calls, same outcome), so it gives no image and
    no attachment, and no read or unlink is made for it; when the loop
    completes it has built one image per result with a path, and that
    number is the [totalPages] of the output item. *)
Theorem C10_pathless_results_skipped (fmt : jsstring)
    (results : list convertResult) (images : list image) (w : world) :
  processResults h fmt results images w =
    processResults h fmt (List.filter hasPath results) images w /\
  (forall c,
     c ∈ trace (fst (processResults h fmt results images w)) ->
     c ∈ trace w \/
     exists r q, r ∈ results /\ truthyPath r = Some q /\ touches c q) /\
  (forall w' images',
     processResults h fmt results images w = (w', Ok images') ->
     length images' = (length images + length (List.filter hasPath results))%nat) /\
  (forall (item out : INodeExecutionData H) (p : params H) (pdfBuffer : bytes)
          (pdfPath : jsstring) (w0 w' : world),
     convertFromPath h item p pdfBuffer pdfPath w0 = (w', Ok out) ->
     exists fs2 reported images',
       bulk h pdfPath (tmpdir h) (density p) (format p) (files w0)
         = (fs2, Ok reported) /\
       length images' = length (List.filter hasPath reported) /\
       binary out = Some (attachImages h p images') /\
       json out !! outputProperty p =
       Some (VObj [ (lit "totalPages",
                     VNum (Z.of_nat (length (List.filter hasPath reported))));
                    (lit "format", VStr (format p));
                    (lit "density", VOpaque (density p));
                    (lit "pdfSize", VNum (Z.of_nat (length pdfBuffer))) ])).
Proof.
  split; [apply processResults_filter|].
  split; [apply processResults_trace_only|].
  split; [intros w' images'; apply processResults_length|].
  intros item out p pdfBuffer pdfPath w0 w' Hrun.
  destruct (convertFromPath_ok _ _ _ _ _ _ _ Hrun)
    as (fs2 & reported & images' & Hbulk & Hloop & ->).
  apply processResults_length in Hloop. simpl in Hloop.
  exists fs2, reported, images'. split; [exact Hbulk|]. split; [exact Hloop|].
  split; [done|]. simpl. rewrite lookup_insert_eq, Hloop. done.
Qed.
End FileBasedFacts.

Section FileBasedExamples.
Import Js FileBased SpecFiles Demo.



Lemma C10_pathless_results_skipped_witness :
  exists fs2 reported images',
    bulk (fileHost noFault) (lit "/tmp/in.pdf") (lit "/tmp") 150 (lit "png") ∅
      = (fs2, Ok reported) /\
    length reported = 3%nat /\
    length images' = 2%nat /\
    json (outputItem (fileHost noFault) emptyItem fileParams [] images')
      !! lit "images" =
    Some (VObj [ (lit "totalPages", VNum 2);
                 (lit "format", VStr (lit "png"));
                 (lit "density", VOpaque 150);
                 (lit "pdfSize", VNum 0) ]).
Proof.
  destruct (C10_pathless_results_skipped (fileHost noFault) (lit "png") [] [] emptyDisk)
    as (_ & _ & _ & Hitem).
  destruct (Hitem emptyItem
              (match snd (convertFromPath (fileHost noFault) emptyItem fileParams
                            [] (lit "/tmp/in.pdf") emptyDisk) with
               | Ok out => out
               | Throw _ => emptyItem
               end)
              fileParams [] (lit "/tmp/in.pdf") emptyDisk
              (fst (convertFromPath (fileHost noFault) emptyItem fileParams []
                      (lit "/tmp/in.pdf") emptyDisk)))
    as (fs2 & reported & images' & Hbulk & Hlen & Hbin & Hjson);
    [vm_compute; reflexivity|].
  exists fs2, reported, images'. split; [exact Hbulk|].
  vm_compute in Hbulk. injection Hbulk as _ <-.
  assert (length images' = 2%nat) as Hcount by exact Hlen.
  split; [reflexivity|]. split; [exact Hcount|].
  unfold outputItem. simpl json. rewrite lookup_insert_eq, Hcount. reflexivity.
Defined.
End FileBasedExamples.

(* ===================================================================== *)
(** * Part III. Further properties of the two nodes                       *)
(* ===================================================================== *)

(** ** More on the page-range parser *)

Section ParserMore.
Import Js InMemory Spec.

Lemma parsePart_elem_of (pages pages' : list Z) (part : jsstring) :
  parsePart pages part = Ok pages' ->
  forall x, x ∈ pages' <-> x ∈ pages \/ denotes part x.
Proof.
  intros Hok x. unfold denotes.
  destruct (includes dash (trim part)) eqn:Hinc.
  - destruct (split_with dash (trim part) Hinc) as (p0 & p1 & rest & Hsplit).
    rewrite (parsePart_range pages part p0 p1 rest Hsplit) in Hok.
    unfold rangeOutcome in Hok.
    destruct (parseInt (trim p0)) as [s|] eqn:Hs; [|discriminate].
    destruct (parseInt (trim p1)) as [e|] eqn:He; [|discriminate].
    destruct ((s >? e) || (s <? 1)); [discriminate|]. injection Hok as <-.
    rewrite pushRange_elem_of. split.
    + intros [Hx|Hx]; [now left|]. right. now exists p0, p1, rest, s, e.
    + intros [Hx|(q0 & q1 & rest' & s' & e' & Hsplit' & Hs' & He' & Hx)]; [now left|].
      rewrite Hsplit in Hsplit'. injection Hsplit' as <- <- <-.
      rewrite Hs in Hs'. rewrite He in He'. injection Hs' as <-. injection He' as <-.
      now right.
  - unfold parsePart in Hok. rewrite Hinc in Hok.
    destruct (parseInt (trim part)) as [n|]; [|discriminate].
    destruct (n <? 1); [discriminate|]. injection Hok as <-.
    rewrite pushIfAbsent_elem_of. split.
    + intros [Hx| ->]; [now left | now right].
    + intros [Hx| [= ->]]; [now left | now right].
Qed.

Lemma parseParts_elem_of (parts : list jsstring) (pages pages' : list Z) :
  parseParts pages parts = Ok pages' ->
  forall x, x ∈ pages' <-> x ∈ pages \/ exists part, part ∈ parts /\ denotes part x.
Proof.
  revert pages. induction parts as [|q rest IH]; intros pages Hok x; simpl in Hok.
  - injection Hok as <-. split; [now left|].
    intros [Hx|(part & Hin & _)]; [done | now apply elem_of_nil in Hin].
  - destruct (parsePart pages q) as [pages1|e] eqn:Hq; simpl in Hok; [|discriminate].
    rewrite (IH pages1 Hok x), (parsePart_elem_of pages pages1 q Hq x). split.
    + intros [[Hx|Hx]|(part & Hin & Hx)].
      * now left.
      * right. exists q. split; [left | done].
      * right. exists part. split; [now right | done].
    + intros [Hx|(part & Hin & Hx)]; [now left; left|].
      apply elem_of_cons in Hin as [-> | Hin]; [now left; right|].
      right. now exists part.
Qed.

(** The loop accepts a list of tokens when it accepts each of them. *)
Lemma parseParts_isOk (parts : list jsstring) (pages : list Z) :
  isOk (parseParts pages parts) = forallb accepted parts.
Proof.
  revert pages. induction parts as [|q rest IH]; intros pages; simpl; [done|].
  unfold accepted at 1. rewrite (parsePart_isOk [] pages q).
  destruct (parsePart pages q) as [pages1|e]; simpl; [apply IH | done].
Qed.

Lemma strictly_ascending_ext (l1 l2 : list Z) :
  StronglySorted Z.lt l1 -> StronglySorted Z.lt l2 ->
  (forall x, x ∈ l1 <-> x ∈ l2) -> l1 = l2.
Proof.
  intros H1. revert l2. induction H1 as [|x l1 Hl1 IH Hx]; intros l2 H2 Hext.
  - destruct l2 as [|y l2]; [done|].
    exfalso. apply (elem_of_nil y), Hext. left.
  - destruct H2 as [|y l2 Hl2 Hy].
    + exfalso. apply (elem_of_nil x), Hext. left.
    + rewrite Forall_forall in Hx, Hy.
      assert (x = y) as ->.
      { assert (x ∈ y :: l2) as Hx2 by (apply Hext; left).
        assert (y ∈ x :: l1) as Hy1 by (apply Hext; left).
        apply elem_of_cons in Hx2 as [?|Hx2]; [done|].
        apply elem_of_cons in Hy1 as [?|Hy1]; [done|].
        specialize (Hx y Hy1). specialize (Hy x Hx2). lia. }
      f_equal. apply IH; [done|]. intros z. split; intros Hz.
      * assert (z ∈ y :: l2) as Hz2 by (apply Hext; now right).
        apply elem_of_cons in Hz2 as [-> | ?]; [|done].
        specialize (Hx y Hz). lia.
      * assert (z ∈ y :: l1) as Hz1 by (apply Hext; now right).
        apply elem_of_cons in Hz1 as [-> | ?]; [|done].
        specialize (Hy y Hz). lia.
Qed.

Lemma parsePageNumbers_inv (expr : jsstring) (pages : list Z) :
  parsePageNumbers expr = Ok pages ->
  StronglySorted Z.lt pages /\
  forall i, i ∈ pages <-> exists part, part ∈ split comma expr /\ denotes part i.
Proof.
  unfold parsePageNumbers. intros Hparse.
  destruct (parseParts [] (split comma expr)) as [raw|e] eqn:Hraw;
    simpl in Hparse; [|discriminate].
  injection Hparse as <-.
  assert (pagesInv raw) as [Hnd _].
  { eapply parseParts_inv; [|exact Hraw]. split; constructor. }
  split.
  - apply ascending_NoDup_strict; [apply sort_ascending|].
    now rewrite sort_Permutation.
  - intros i. rewrite sort_Permutation, (parseParts_elem_of _ _ _ Hraw i).
    split; [intros [Hi|Hi]; [now apply elem_of_nil in Hi | done] | now right].
Qed.

Lemma parsePageNumbers_isOk (expr : jsstring) :
  isOk (parsePageNumbers expr) = forallb accepted (split comma expr).
Proof.
  unfold parsePageNumbers. rewrite <- (parseParts_isOk _ []).
  now destruct (parseParts [] (split comma expr)).
Qed.

(** X1: the result of the parser is the union of its tokens: a page is in
    the returned list exactly when some token of the expression stands for
    it (a single token for the number it parses to, a range token for every
    integer between its two bounds). *)
Theorem X1_parse_is_union (expr : jsstring) (pages : list Z) :
  parsePageNumbers expr = Ok pages ->
  forall i, i ∈ pages <-> exists part, part ∈ split comma expr /\ denotes part i.
Proof. intros Hparse. now apply parsePageNumbers_inv. Qed.

Lemma X1_parse_is_union_witness :
  3 ∈ [2; 3; 4; 9] <->
  exists part, part ∈ split comma (lit "9, 2-4,3") /\ denotes part 3.
Proof.
  apply (X1_parse_is_union (lit "9, 2-4,3") [2; 3; 4; 9]). vm_compute. reflexivity.
Defined.

(** X2: the order of the tokens and their repetition do not matter: two
    expressions with the same set of tokens are both rejected, or both
    accepted with the same list. *)
Theorem X2_token_order_irrelevant (expr1 expr2 : jsstring) :
  (forall part, part ∈ split comma expr1 <-> part ∈ split comma expr2) ->
  match parsePageNumbers expr1, parsePageNumbers expr2 with
  | Ok pages1, Ok pages2 => pages1 = pages2
  | Throw _, Throw _ => True
  | _, _ => False
  end.
Proof.
  intros Hsame.
  assert (isOk (parsePageNumbers expr1) = isOk (parsePageNumbers expr2)) as Hacc.
  { rewrite !parsePageNumbers_isOk. apply eq_true_iff_eq.
    rewrite !forallb_forall. split; intros Hall part Hin; apply Hall;
      apply list_elem_of_In; apply list_elem_of_In in Hin; now apply Hsame. }
  destruct (parsePageNumbers expr1) as [pages1|e1] eqn:H1,
           (parsePageNumbers expr2) as [pages2|e2] eqn:H2; try discriminate; [|done].
  destruct (parsePageNumbers_inv _ _ H1) as [Hs1 Hm1].
  destruct (parsePageNumbers_inv _ _ H2) as [Hs2 Hm2].
  apply strictly_ascending_ext; [done | done|].
  intros x. rewrite Hm1, Hm2. split; intros (part & Hin & Hd); exists part;
    (split; [now apply Hsame | done]).
Qed.

Lemma X2_token_order_irrelevant_witness :
  match parsePageNumbers (lit "7,1-3"), parsePageNumbers (lit "1-3,7,1-3") with
  | Ok pages1, Ok pages2 => pages1 = pages2
  | Throw _, Throw _ => True
  | _, _ => False
  end.
Proof.
  apply (X2_token_order_irrelevant (lit "7,1-3") (lit "1-3,7,1-3")).
  intros part. vm_compute split. rewrite !elem_of_cons. rewrite !elem_of_nil.
  tauto.
Defined.

Lemma dropWhile_all (p : N -> bool) (a b : jsstring) :
  forallb p a = true -> dropWhile p (a ++ b) = dropWhile p b.
Proof.
  induction a as [|c a IH]; simpl; [done|].
  intros Hall. apply andb_true_iff in Hall as [Hc Ha]. rewrite Hc. now apply IH.
Qed.

Lemma dropWhile_nil_iff (p : N -> bool) (a : jsstring) :
  dropWhile p a = [] <-> forallb p a = true.
Proof.
  induction a as [|c a IH]; simpl; [done|].
  destruct (p c); simpl; [exact IH | split; discriminate].
Qed.

Lemma dropWhile_app_keep (p : N -> bool) (a b : jsstring) :
  forallb p a = false -> dropWhile p (a ++ b) = dropWhile p a ++ b.
Proof.
  induction a as [|c a IH]; simpl; [discriminate|].
  destruct (p c); simpl; [exact IH | done].
Qed.

Lemma includes_dropWhile (p : N -> bool) (c : N) (s : jsstring) :
  includes c s = false -> includes c (dropWhile p s) = false.
Proof.
  induction s as [|x s IH]; simpl; [done|].
  intros Hinc. destruct (p x); [|exact Hinc].
  apply orb_false_iff in Hinc as [_ Hs]. now apply IH.
Qed.

(** White space around a string does not change what [trim] returns. *)
Lemma trim_padded (ws1 s ws2 : jsstring) :
  forallb isWhiteSpace ws1 = true -> forallb isWhiteSpace ws2 = true ->
  trim (ws1 ++ s ++ ws2) = trim s.
Proof.
  intros H1 H2. unfold trim, trimStart. rewrite (dropWhile_all _ ws1 _ H1).
  destruct (forallb isWhiteSpace s) eqn:Hs.
  - rewrite (dropWhile_all _ s ws2 Hs).
    rewrite (proj2 (dropWhile_nil_iff _ ws2) H2), (proj2 (dropWhile_nil_iff _ s) Hs).
    done.
  - rewrite (dropWhile_app_keep _ s ws2 Hs). unfold trimEnd.
    rewrite rev_app_distr, dropWhile_all; [done|].
    rewrite forallb_forall in H2 |- *. intros x Hx. apply H2.
    now apply in_rev.
Qed.

Lemma decimal_acc_nonneg (ds : jsstring) (acc : Z) :
  0 <= acc -> 0 <= fold_left (fun a c => 10 * a + digitValue c) ds acc.
Proof.
  revert acc. induction ds as [|d ds IH]; intros acc Hacc; simpl; [done|].
  apply IH. unfold digitValue. lia.
Qed.

(** Without a dash there is no minus sign to read: the number is not
    negative. *)
Lemma parseInt_nonneg (s : jsstring) (n : Z) :
  includes dash s = false -> parseInt s = Some n -> 0 <= n.
Proof.
  intros Hinc. unfold parseInt.
  pose proof (includes_dropWhile isWhiteSpace dash s Hinc) as Hinc'.
  fold (trimStart s) in Hinc'.
  destruct (trimStart s) as [|c r] eqn:Hs0; simpl.
  - discriminate.
  - unfold includes in Hinc'. cbn [existsb] in Hinc'.
    apply orb_false_iff in Hinc' as [Hc _].
    rewrite N.eqb_sym in Hc. rewrite Hc.
    destruct (c =? plus)%N;
      (destruct (takeWhile isDigit _) as [|d ds]; [discriminate|];
       intros [= <-];
       pose proof (decimal_acc_nonneg (d :: ds) 0 ltac:(lia)) as Hd;
       unfold decimal; lia).
Qed.

(** X3: a token without a dash is one page number.  It is rejected, with
    the invalid-page-number error, exactly when it does not parse or
    parses to a number below 1 (which can only be 0, no sign being left to
    read); otherwise the number is appended, unless the list has it. *)
Theorem X3_single_token (pages : list Z) (part : jsstring) :
  includes dash (trim part) = false ->
  ((parseInt (trim part) = None \/
    exists n, parseInt (trim part) = Some n /\ n < 1) <->
   parsePart pages part =
   Throw (ApplicationError (lit "Invalid page number: " ++ trim part))) /\
  (forall n, parseInt (trim part) = Some n -> 0 <= n) /\
  (forall n, parseInt (trim part) = Some n -> 1 <= n ->
             parsePart pages part =
             Ok (if bool_decide (n ∈ pages) then pages else pages ++ [n])).
Proof.
  intros Hinc. split; [|split].
  - unfold parsePart. rewrite Hinc.
    destruct (parseInt (trim part)) as [n|]; [|split; [done | now left]].
    destruct (n <? 1) eqn:Hn.
    + apply Z.ltb_lt in Hn. split; [done|]. intros _. right. now exists n.
    + apply Z.ltb_ge in Hn. split; [|discriminate].
      intros [?|(m & [= <-] & Hm)]; [discriminate | lia].
  - intros n. now apply parseInt_nonneg.
  - intros n Hn Hpos. unfold parsePart. rewrite Hinc, Hn.
    replace (n <? 1) with false by (symmetry; now apply Z.ltb_ge).
    unfold pushIfAbsent. f_equal.
    destruct (arrayIncludes n pages) eqn:Hmem.
    + apply arrayIncludes_elem_of in Hmem. now rewrite bool_decide_eq_true_2.
    + rewrite bool_decide_eq_false_2; [done|].
      intros Hin. apply arrayIncludes_elem_of in Hin. congruence.
Qed.

Lemma X3_single_token_witness :
  ((parseInt (trim (lit " 4")) = None \/
    exists n, parseInt (trim (lit " 4")) = Some n /\ n < 1) <->
   parsePart [4; 2] (lit " 4") =
   Throw (ApplicationError (lit "Invalid page number: " ++ trim (lit " 4")))) /\
  (forall n, parseInt (trim (lit " 4")) = Some n -> 0 <= n) /\
  (forall n, parseInt (trim (lit " 4")) = Some n -> 1 <= n ->
             parsePart [4; 2] (lit " 4") =
             Ok (if bool_decide (n ∈ [4; 2]) then [4; 2] else [4; 2] ++ [n])).
Proof. apply (X3_single_token [4; 2] (lit " 4")). reflexivity. Defined.

(** X4: an expression with an empty or blank token (a trailing comma, two
    commas in a row, a leading comma) is rejected. *)
Theorem X4_blank_token_rejected (expr part : jsstring) :
  part ∈ split comma expr -> trim part = [] ->
  isOk (parsePageNumbers expr) = false /\
  parsePart [] part = Throw (ApplicationError (lit "Invalid page number: ")).
Proof.
  intros Hin Hblank.
  assert (parsePart [] part =
          Throw (ApplicationError (lit "Invalid page number: "))) as Hpart.
  { unfold parsePart. rewrite Hblank. simpl. done. }
  split; [|exact Hpart].
  rewrite parsePageNumbers_isOk. apply not_true_is_false. intros Hall.
  rewrite forallb_forall in Hall. apply list_elem_of_In in Hin.
  specialize (Hall part Hin). unfold accepted in Hall. now rewrite Hpart in Hall.
Qed.

Lemma X4_blank_token_rejected_witness :
  isOk (parsePageNumbers (lit "1,2, ")) = false /\
  parsePart [] (lit " ") = Throw (ApplicationError (lit "Invalid page number: ")).
Proof.
  apply (X4_blank_token_rejected (lit "1,2, ") (lit " ")).
  - vm_compute split. right. right. left.
  - reflexivity.
Defined.

Lemma parsePart_adds (pages pages' : list Z) (part : jsstring) :
  parsePart pages part = Ok pages' -> exists i, denotes part i.
Proof.
  intros Hok. unfold denotes.
  destruct (includes dash (trim part)) eqn:Hinc.
  - destruct (split_with dash (trim part) Hinc) as (p0 & p1 & rest & Hsplit).
    rewrite (parsePart_range pages part p0 p1 rest Hsplit) in Hok.
    unfold rangeOutcome in Hok.
    destruct (parseInt (trim p0)) as [s|] eqn:Hs; [|discriminate].
    destruct (parseInt (trim p1)) as [e|] eqn:He; [|discriminate].
    destruct ((s >? e) || (s <? 1)) eqn:Hbad; [discriminate|].
    apply orb_false_iff in Hbad as [Hb _]. rewrite Z.gtb_ltb in Hb.
    apply Z.ltb_ge in Hb. exists s, p0, p1, rest, s, e. repeat split; try done; lia.
  - unfold parsePart in Hok. rewrite Hinc in Hok.
    destruct (parseInt (trim part)) as [n|]; [|discriminate]. now exists n.
Qed.

(** X5: a successful parse never selects nothing: the list returned has at
    least one page. *)
Theorem X5_parse_nonempty (expr : jsstring) (pages : list Z) :
  parsePageNumbers expr = Ok pages -> pages <> [].
Proof.
  intros Hparse.
  destruct (parsePageNumbers_inv _ _ Hparse) as [_ Hmem].
  pose proof (parsePageNumbers_isOk expr) as Hacc. rewrite Hparse in Hacc.
  simpl in Hacc. symmetry in Hacc. rewrite forallb_forall in Hacc.
  destruct (split comma expr) as [|part rest] eqn:Hsplit;
    [now apply split_nonempty in Hsplit|].
  specialize (Hacc part (or_introl eq_refl)). unfold accepted in Hacc.
  destruct (parsePart [] part) as [l|e] eqn:Hpart; [|discriminate].
  destruct (parsePart_adds _ _ _ Hpart) as [i Hi].
  assert (i ∈ pages) as Hin by (apply Hmem; exists part; split; [left | done]).
  intros ->. now apply elem_of_nil in Hin.
Qed.

Lemma X5_parse_nonempty_witness : [5] <> [].
Proof. apply (X5_parse_nonempty (lit "5,5") [5]). vm_compute. reflexivity. Defined.

(** X6: white space before and after a token is ignored: the padded token
    has the same outcome, error text included. *)
Theorem X6_token_padding_ignored (pages : list Z) (part ws1 ws2 : jsstring) :
  forallb isWhiteSpace ws1 = true -> forallb isWhiteSpace ws2 = true ->
  parsePart pages (ws1 ++ part ++ ws2) = parsePart pages part.
Proof.
  intros H1 H2. unfold parsePart. now rewrite (trim_padded ws1 part ws2 H1 H2).
Qed.

Lemma X6_token_padding_ignored_witness :
  parsePart [1] ([9; 32; 160] ++ lit "2-3" ++ [10; 8232])%N = parsePart [1] (lit "2-3").
Proof.
  apply (X6_token_padding_ignored [1] (lit "2-3")); reflexivity.
Defined.

(** X7: a range needs both bounds: a token that starts with a dash (so a
    negative number too) and a token that ends with its only dash are
    rejected with the invalid-range error. *)
Theorem X7_open_range_rejected (pages : list Z) (part : jsstring) :
  (exists rest, trim part = dash :: rest) \/
  (exists p0, trim part = p0 ++ [dash] /\ includes dash p0 = false) ->
  parsePart pages part =
  Throw (ApplicationError (lit "Invalid page range: " ++ trim part)).
Proof.
  intros [[rest Htrim] | (p0 & Htrim & Hp0)].
  - assert (exists p1 others, split dash (trim part) = [] :: p1 :: others)
      as (p1 & others & Hsplit).
    { rewrite Htrim. simpl.
      destruct (split dash rest) as [|q qs] eqn:E; [now apply split_nonempty in E|].
      now exists q, qs. }
    rewrite (parsePart_range pages part [] p1 others Hsplit). done.
  - assert (split dash (trim part) = [p0; []]) as Hsplit.
    { rewrite Htrim. now rewrite (split_app_sep dash p0 [] Hp0). }
    rewrite (parsePart_range pages part p0 [] [] Hsplit).
    unfold rangeOutcome. simpl. now destruct (parseInt (trim p0)).
Qed.

Lemma X7_open_range_rejected_witness :
  parsePart [] (lit "-3") =
    Throw (ApplicationError (lit "Invalid page range: " ++ trim (lit "-3"))) /\
  parsePart [] (lit "3-") =
    Throw (ApplicationError (lit "Invalid page range: " ++ trim (lit "3-"))).
Proof.
  split.
  - apply (X7_open_range_rejected [] (lit "-3")). left. now exists (lit "3").
  - apply (X7_open_range_rejected [] (lit "3-")). right. now exists (lit "3").
Defined.
End ParserMore.

(** ** Printing numbers, and maps built by successive insertions *)

Section PrintingFacts.
Import Js.

Lemma lit_inj (a b : string) : lit a = lit b -> a = b.
Proof.
  revert b. induction a as [|c a IH]; intros [|d b]; simpl; try discriminate; [done|].
  intros [= Hc Hab]. f_equal; [|now apply IH].
  rewrite <- (ascii_N_embedding c), <- (ascii_N_embedding d). now rewrite Hc.
Qed.

Lemma to_int_proper (z : Z) :
  Z.to_int z <> Decimal.Pos Decimal.Nil /\ Z.to_int z <> Decimal.Neg Decimal.Nil.
Proof.
  destruct z as [|p|p]; simpl; split; try discriminate;
    intros [= Hp]; now apply (DecimalPos.Unsigned.to_uint_nonnil p).
Qed.

(** Reading back the decimal text of an integer gives the integer. *)
Lemma int_of_ofZ (z : Z) :
  NilZero.int_of_string (NilZero.string_of_int (Z.to_int z)) = Some (Z.to_int z).
Proof. destruct (to_int_proper z). now apply NilZero.isi. Qed.

Lemma ofZ_inj (a b : Z) : ofZ a = ofZ b -> a = b.
Proof.
  unfold ofZ. intros Heq. apply lit_inj in Heq.
  apply DecimalZ.to_int_inj.
  pose proof (int_of_ofZ a) as Ha. rewrite Heq, int_of_ofZ in Ha. congruence.
Qed.

Lemma ofNumber_inj (a b : option Z) : ofNumber a = ofNumber b -> a = b.
Proof.
  destruct a as [a|], b as [b|]; unfold ofNumber; intros Heq.
  - f_equal. now apply ofZ_inj.
  - unfold ofZ in Heq. apply lit_inj in Heq.
    pose proof (int_of_ofZ a) as Ha. rewrite Heq in Ha. discriminate.
  - unfold ofZ in Heq. apply lit_inj in Heq.
    pose proof (int_of_ofZ b) as Hb. rewrite <- Heq in Hb. discriminate.
  - done.
Qed.

(** In a map filled by successive assignments [m[key x] = val x], a key
    holds the value of the last element assigned to it. *)
Lemma assign_all_lookup {A V : Type} (key : A -> jsstring) (val : A -> V)
    (xs : list A) (m : gmap jsstring V) (k : jsstring) :
  fold_left (fun acc x => <[ key x := val x ]> acc) xs m !! k =
  match last (filter (fun x => key x = k) xs) with
  | Some x => Some (val x)
  | None => m !! k
  end.
Proof.
  revert m. induction xs as [|x xs IH]; intros m; simpl; [done|].
  rewrite IH, filter_cons. destruct (decide (key x = k)) as [Hk|Hk].
  - rewrite last_cons. destruct (last (filter _ xs)); [done|].
    rewrite <- Hk. apply lookup_insert_eq.
  - destruct (last (filter _ xs)); [done|]. now apply lookup_insert_ne.
Qed.

(** When the keys are pairwise distinct and new, every assignment adds an
    entry. *)
Lemma assign_all_size {A V : Type} (key : A -> jsstring) (val : A -> V)
    (xs : list A) (m : gmap jsstring V) :
  NoDup (key <$> xs) -> (forall x, x ∈ xs -> m !! key x = None) ->
  size (fold_left (fun acc x => <[ key x := val x ]> acc) xs m) =
  (size m + length xs)%nat.
Proof.
  revert m. induction xs as [|x xs IH]; intros m Hnd Hnew; simpl; [lia|].
  rewrite fmap_cons in Hnd. apply NoDup_cons in Hnd as [Hx Hnd].
  rewrite IH; [|done|].
  - rewrite map_size_insert_None; [lia|]. apply Hnew. left.
  - intros y Hy. rewrite lookup_insert_ne; [apply Hnew; now right|].
    intros Heq. apply Hx. rewrite Heq. apply list_elem_of_fmap. now exists y.
Qed.
End PrintingFacts.

(** ** More on the in-memory node *)

Section InMemoryMore.
Import Js InMemory Spec.
Context {H : Type} (h : Host H).

Lemma attachmentKey_inj (name : jsstring) (a b : option Z) :
  attachmentKey name a = attachmentKey name b -> a = b.
Proof.
  unfold attachmentKey. intros Heq. apply app_inv_head in Heq.
  apply app_inv_head in Heq. now apply ofNumber_inj.
Qed.

Lemma attachImages_assign (name : jsstring) (images : list image) :
  attachImages h name images =
  fold_left (fun acc im => <[ attachmentKey name (pageNumber im) := attachment h im ]> acc)
    images ∅.
Proof. reflexivity. Qed.

(** The result of one turn of the loop, by cases. *)
Lemma processItem_cases (itemIndex : nat) (item : INodeExecutionData H) :
  match itemBody h itemIndex item with
  | Ok out => processItem h itemIndex item = Ok out
  | Throw e =>
      processItem h itemIndex item =
      if continueOnFail h then Ok (errorItem itemIndex item e)
      else Throw (NodeOperationError (message e) (Some itemIndex))
  end.
Proof.
  unfold processItem. destruct (itemBody h itemIndex item) as [out|e]; [done|].
  destruct (continueOnFail h); [done|]. now destruct e.
Qed.









Lemma toImages_pageNumbers (fmt : jsstring) (sel : list Z)
    (outputImages : list bytes) :
  pageNumber <$> toImages fmt (Some sel) outputImages =
  (Some <$> take (length outputImages) sel) ++
  replicate (length outputImages - length sel) None.
Proof.
  apply list_eq. intros i. rewrite list_lookup_fmap.
  destruct (decide (i < length outputImages)%nat) as [Hlt|Hge].
  - rewrite (toImages_lookup_pageNumber fmt (Some sel) outputImages i Hlt).
    destruct (decide (i < length sel)%nat) as [Hsel|Hsel].
    + rewrite lookup_app_l by (rewrite length_fmap, length_take; lia).
      rewrite list_lookup_fmap, lookup_take_lt by done.
      destruct (lookup_lt_is_Some_2 sel i Hsel) as [n ->]. done.
    + rewrite lookup_app_r by (rewrite length_fmap, length_take; lia).
      rewrite length_fmap, length_take, (lookup_ge_None_2 sel i) by lia.
      symmetry. apply lookup_replicate_2. lia.
  - rewrite (lookup_ge_None_2 (toImages fmt (Some sel) outputImages) i)
      by (rewrite toImages_length; lia).
    symmetry. apply lookup_ge_None_2.
    rewrite length_app, length_fmap, length_take, length_replicate. lia.
Qed.

(** X11: images are tagged by position, not by content: the i-th image the
    backend returns gets the i-th requested page number.  When the backend
    returns fewer images than requested (it skipped a page), they carry the
    first requested numbers; images beyond the request carry an undefined
    page number. *)
Theorem X11_tagging_by_position (fmt : jsstring) (sel : list Z)
    (outputImages : list bytes) :
  pageNumber <$> toImages fmt (Some sel) outputImages =
  (Some <$> take (length outputImages) sel) ++
  replicate (length outputImages - length sel) None.
Proof. apply toImages_pageNumbers. Qed.

Lemma attachImages_lookup (name : jsstring) (images : list image)
    (pn : option Z) :
  attachImages h name images !! attachmentKey name pn =
  attachment h <$> last (filter (fun im => pageNumber im = pn) images).
Proof.
  rewrite attachImages_assign, assign_all_lookup, lookup_empty.
  rewrite (list_filter_iff
             (fun im => attachmentKey name (pageNumber im) = attachmentKey name pn)
             (fun im => pageNumber im = pn)).
  - now destruct (last _).
  - intros im. split; [apply attachmentKey_inj | now intros ->].
Qed.

(** X12: the attachment stored for a page number is the one of the last
    image carrying that number: an earlier image with the same number is
    overwritten silently, and a number no image carries has no
    attachment. *)
Theorem X12_attachment_last_wins (name : jsstring) (images : list image)
    (pn : option Z) :
  attachImages h name images !! attachmentKey name pn =
  attachment h <$> last (filter (fun im => pageNumber im = pn) images).
Proof. apply attachImages_lookup. Qed.

Lemma attachImages_size (name : jsstring) (images : list image) :
  NoDup (pageNumber <$> images) ->
  size (attachImages h name images) = length images.
Proof.
  intros Hnd. rewrite attachImages_assign, assign_all_size.
  - now rewrite map_size_empty.
  - rewrite (list_fmap_compose pageNumber (attachmentKey name)).
    apply NoDup_fmap_2; [|done]. intros a b. apply attachmentKey_inj.
  - intros im _. apply lookup_empty.
Qed.

(** X13: in normal operation no attachment is lost: with no page list, or
    with a duplicate-free page list at least as long as what the backend
    returns, the item gets as many attachments as images. *)
Theorem X13_one_attachment_per_image (name fmt : jsstring)
    (pageNumbers : option (list Z)) (outputImages : list bytes) :
  match pageNumbers with
  | None => True
  | Some sel => NoDup sel /\ (length outputImages <= length sel)%nat
  end ->
  size (attachImages h name (toImages fmt pageNumbers outputImages)) =
  length outputImages.
Proof.
  intros Hsel. rewrite attachImages_size; [apply toImages_length|].
  destruct pageNumbers as [sel|].
  - destruct Hsel as [Hnd Hlen]. rewrite toImages_pageNumbers.
    replace (length outputImages - length sel)%nat with 0%nat by lia.
    simpl. rewrite app_nil_r. apply NoDup_fmap_2; [intros a b [= ->]; done|].
    exact (sublist_NoDup _ _ Hnd (sublist_take sel (length outputImages))).
  - rewrite toImages_sequential. apply NoDup_fmap_2; [intros a b [= ->]; done|].
    apply NoDup_seqZ.
Qed.

(** X14: the JSON of a normal output item.  [totalPages] is the number of
    images, [outputFormat] and [scale] echo the parameters; the images
    array is stored under the output property name unless that name is one
    of these three keys, in which case the fixed field wins and the array
    is not in the JSON; every other field of the input item is kept. *)
Theorem X14_output_json (item : INodeExecutionData H) (p : params H)
    (images : list image) :
  let out := outputItem h item p images in
  let reserved := [lit "totalPages"; lit "outputFormat"; lit "scale"] in
  json out !! lit "totalPages" = Some (VNum (Z.of_nat (length images))) /\
  json out !! lit "outputFormat" = Some (VStr (outputFormat p)) /\
  json out !! lit "scale" = Some (VOpaque (scale p)) /\
  (outputPropertyName p ∉ reserved ->
   json out !! outputPropertyName p = Some (VArr (map imageVal images))) /\
  (forall key, key ∉ outputPropertyName p :: reserved ->
               json out !! key = json item !! key).
Proof.
  intros out reserved. unfold out, outputItem. simpl json.
  assert (lit "scale" <> lit "outputFormat") as H1
    by (intros Heq; vm_compute in Heq; discriminate).
  assert (lit "scale" <> lit "totalPages") as H2
    by (intros Heq; vm_compute in Heq; discriminate).
  assert (lit "outputFormat" <> lit "totalPages") as H3
    by (intros Heq; vm_compute in Heq; discriminate).
  split; [|split; [|split; [|split]]].
  - rewrite !lookup_insert_ne by done. apply lookup_insert_eq.
  - rewrite lookup_insert_ne by done. apply lookup_insert_eq.
  - apply lookup_insert_eq.
  - intros Hfree. unfold reserved in Hfree. rewrite !not_elem_of_cons in Hfree.
    destruct Hfree as (Ha & Hb & Hc & _).
    rewrite !lookup_insert_ne by done. apply lookup_insert_eq.
  - intros key Hkey. unfold reserved in Hkey. rewrite !not_elem_of_cons in Hkey.
    destruct Hkey as (Ha & Hb & Hc & Hd & _).
    now rewrite !lookup_insert_ne by done.
Qed.
End InMemoryMore.

Section InMemoryMoreExamples.
Import Js InMemory Spec Demo.




Lemma X13_one_attachment_per_image_witness :
  size (attachImages (demoHost true) (lit "images")
          (toImages (lit "png") (Some [2; 5; 7]) [[Byte.x01]; [Byte.x02]])) = 2%nat.
Proof.
  apply (X13_one_attachment_per_image (demoHost true) (lit "images") (lit "png")
           (Some [2; 5; 7]) [[Byte.x01]; [Byte.x02]]).
  split; [|simpl; lia]. repeat constructor; rewrite ?elem_of_cons, ?elem_of_nil; lia.
Defined.

Lemma X14_output_json_witness :
  json (outputItem (demoHost true) emptyItem binaryParams []) !! lit "images" =
    Some (VArr []) /\
  json (outputItem (demoHost true) emptyItem binaryParams []) !! lit "other" = None.
Proof.
  destruct (X14_output_json (demoHost true) emptyItem binaryParams [])
    as (_ & _ & _ & Himages & Hkept).
  split.
  - apply Himages. rewrite !not_elem_of_cons. repeat split;
      try (intros Heq; vm_compute in Heq; discriminate). apply not_elem_of_nil.
  - rewrite Hkept; [reflexivity|]. rewrite !not_elem_of_cons. repeat split;
      try (intros Heq; vm_compute in Heq; discriminate). apply not_elem_of_nil.
Defined.
End InMemoryMoreExamples.

(** ** More on the file-based node *)

Section FileBasedMore.
Import Js FileBased SpecFiles.
Context {H : Type} (h : Host H).

Lemma startsWith_app (needle s : jsstring) :
  startsWith needle s = true <-> exists post, s = needle ++ post.
Proof.
  revert s. induction needle as [|a needle IH]; intros s; simpl.
  - split; [intros _; now exists s | done].
  - destruct s as [|b s]; [split; [discriminate | intros [post Hp]; discriminate]|].
    rewrite andb_true_iff, N.eqb_eq, IH. split.
    + intros [-> [post ->]]. now exists post.
    + intros [post [= -> ->]]. split; [done | now exists post].
Qed.

(** [includesStr] finds the needle exactly when it occurs somewhere. *)
Lemma includesStr_app (needle s : jsstring) :
  includesStr needle s = true <-> exists pre post, s = pre ++ needle ++ post.
Proof.
  induction s as [|c s IH]; simpl.
  - rewrite orb_false_r, startsWith_app. split.
    + intros [post Hp]. now exists [], post.
    + intros (pre & post & Hp). destruct pre as [|x pre]; [|discriminate].
      now exists post.
  - rewrite orb_true_iff, startsWith_app, IH. split.
    + intros [[post Hp] | (pre & post & ->)].
      * now exists [], post.
      * now exists (c :: pre), post.
    + intros (pre & post & Hp). destruct pre as [|x pre].
      * left. now exists post.
      * right. injection Hp as -> ->. now exists pre, post.
Qed.

(** X15: the hint about GraphicsMagick / ImageMagick is added exactly when
    the error message names pdf2pic, around the message, which stays whole;
    any other message is reported unchanged. *)
Theorem X15_hint_keeps_diagnostic (e : jsError) :
  (mentionsPdf2pic e ->
   enhancedMessage e =
   lit "PDF conversion failed: " ++ message e ++
   lit ". Make sure GraphicsMagick or ImageMagick is installed in your system.") /\
  (~ mentionsPdf2pic e -> enhancedMessage e = message e).
Proof.
  unfold mentionsPdf2pic, enhancedMessage. split; intros Hm.
  - now rewrite (proj2 (includesStr_app _ _) Hm).
  - destruct (includesStr (lit "pdf2pic") (message e)) eqn:Hinc; [|done].
    exfalso. apply Hm. now apply includesStr_app.
Qed.


(** An unlink leaves the other files alone. *)
Lemma unlink_other (q q' : jsstring) (w : world) :
  q <> q' -> files (fst (unlink h q w)) !! q' = files w !! q'.
Proof.
  intros Hne. unfold unlink. destruct (fsFault h (Unlink q) w); [done|].
  destruct (files w !! q); [|done]. simpl. now rewrite lookup_delete_ne.
Qed.

Lemma elem_of_reportedPaths (results : list convertResult) (q : jsstring) :
  q ∈ reportedPaths results <-> exists r, r ∈ results /\ truthyPath r = Some q.
Proof. unfold reportedPaths. apply list_elem_of_omap. Qed.

(** The loop leaves alone every file it was not told about. *)
Lemma processResults_other (fmt : jsstring) (results : list convertResult)
    (images : list image) (w : world) (q : jsstring) :
  q ∉ reportedPaths results ->
  files (fst (processResults h fmt results images w)) !! q = files w !! q.
Proof.
  revert images w. induction results as [|r rest IH]; intros images w Hq; [done|].
  rewrite processResults_cons. unfold reportedPaths in Hq. simpl in Hq.
  destruct (truthyPath r) as [q'|] eqn:Hr.
  - apply not_elem_of_cons in Hq as [Hne Hq].
    pose proof (readFile_files h q' w) as Hfiles.
    destruct (readFile h q' w) as [w1 [buf|e]]; simpl in Hfiles.
    + rewrite IH by done. rewrite unlink_other by done. now rewrite Hfiles.
    + simpl. now rewrite Hfiles.
  - now apply IH.
Qed.

(** The disk and the trace after the guarded block, from what the backend
    returned. *)
Lemma convertFromPath_world (item : INodeExecutionData H) (p : params H)
    (pdfBuffer : bytes) (pdfPath : jsstring) (w : world)
    (fs2 : gmap jsstring bytes) (r : result (list convertResult)) :
  bulk h pdfPath (tmpdir h) (density p) (format p) (files w) = (fs2, r) ->
  fst (convertFromPath h item p pdfBuffer pdfPath w) =
  match r with
  | Ok results =>
      fst (processResults h (format p) results []
             {| files := fs2; trace := trace w |})
  | Throw _ => {| files := fs2; trace := trace w |}
  end.
Proof.
  intros Hbulk. unfold convertFromPath, mbind, fsM_bind, runBulk. rewrite Hbulk.
  destruct r as [results|e]; [|done].
  now destruct (processResults h (format p) results [] _) as [w2 [images|e]].
Qed.

(** X17: a conversion call touches only its own files.  Its file-system
    calls are the write and the unlink of the temporary PDF and reads and
    unlinks of the paths the backend reported; every other file is, after
    the call, as the backend left it. *)
Theorem X17_only_own_files (itemIndex : nat) (item : INodeExecutionData H)
    (w : world) (pdfBuffer : bytes) (fs2 : gmap jsstring bytes)
    (r : result (list convertResult)) :
  let p := getNodeParameter h itemIndex in
  let pdf := tempPdfPath h itemIndex in
  assertBinaryData h itemIndex (binaryPropertyName p) = Ok tt ->
  getBinaryDataBuffer h itemIndex (binaryPropertyName p) = Ok pdfBuffer ->
  fsFault h (WriteFile pdf) w = None ->
  bulk h pdf (tmpdir h) (density p) (format p)
    (<[ pdf := pdfBuffer ]> (files w)) = (fs2, r) ->
  let w' := fst (itemBody h itemIndex item w) in
  let reported := match r with
                  | Ok results => reportedPaths results
                  | Throw _ => []
                  end in
  (forall c, c ∈ trace w' ->
     c ∈ trace w \/ c = WriteFile pdf \/ c = Unlink pdf \/
     exists q, q ∈ reported /\ touches c q) /\
  (forall q, q <> pdf -> q ∉ reported -> files w' !! q = fs2 !! q).
Proof.
  intros p pdf Hassert Hbuf Hwrite Hbulk w' reported. unfold w'.
  rewrite (itemBody_written h itemIndex item w pdfBuffer Hassert Hbuf Hwrite).
  fold p. fold pdf. cbv zeta. simpl fst.
  set (w1 := {| files := <[ pdf := pdfBuffer ]> (files w);
                trace := trace w ++ [WriteFile pdf] |}).
  rewrite (convertFromPath_world item p pdfBuffer pdf w1 fs2 r Hbulk).
  split.
  - intros c Hc. rewrite unlink_trace, elem_of_app, list_elem_of_singleton in Hc.
    destruct Hc as [Hc | ->]; [|now right; right; left].
    destruct r as [results|e].
    + apply processResults_trace_only in Hc as [Hc | (r0 & q & Hin & Hq & Ht)].
      * simpl in Hc. rewrite elem_of_app, list_elem_of_singleton in Hc.
        destruct Hc as [Hc | ->]; [now left | now right; left].
      * right. right. right. exists q. split; [|done].
        apply elem_of_reportedPaths. now exists r0.
    + simpl in Hc. rewrite elem_of_app, list_elem_of_singleton in Hc.
      destruct Hc as [Hc | ->]; [now left | now right; left].
  - intros q Hq Hrep. rewrite unlink_other by done.
    destruct r as [results|e]; [|done].
    now rewrite processResults_other.
Qed.







Lemma string_of_uint_digits (d : Decimal.uint) :
  Forall (fun c => isDigit c = true) (lit (NilEmpty.string_of_uint d)).
Proof.
  induction d; cbn [NilEmpty.string_of_uint lit];
    [constructor | constructor; [reflexivity | assumption] ..].
Qed.

(** The decimal text of an integer: digits, after a minus sign at most. *)
Lemma ofZ_chars (z : Z) :
  Forall (fun c => c = dash \/ isDigit c = true) (ofZ z).
Proof.
  assert (forall d, Forall (fun c => c = dash \/ isDigit c = true)
                      (lit (NilZero.string_of_uint d))) as Hu.
  { intros d. unfold NilZero.string_of_uint.
    assert (Forall (fun c => c = dash \/ isDigit c = true)
              (lit (NilEmpty.string_of_uint d))) as Hd
      by (eapply Forall_impl; [apply string_of_uint_digits | intros c Hc; now right]).
    destruct d; try exact Hd. constructor; [right; reflexivity | constructor]. }
  unfold ofZ. destruct (Z.to_int z) as [d|d]; cbn [NilZero.string_of_int lit].
  - apply Hu.
  - constructor; [left; reflexivity | apply Hu].
Qed.

Lemma ofZ_no_underscore (z : Z) : 95%N ∉ ofZ z.
Proof.
  intros Hin. pose proof (ofZ_chars z) as Hall. rewrite Forall_forall in Hall.
  destruct (Hall _ Hin) as [Hd|Hd]; [discriminate Hd | vm_compute in Hd; discriminate].
Qed.

(** Two texts cut at the first separator are equal piece by piece. *)
Lemma app_sep_inj (sep : N) (a b x y : jsstring) :
  sep ∉ a -> sep ∉ b -> a ++ sep :: x = b ++ sep :: y -> a = b /\ x = y.
Proof.
  revert b. induction a as [|c a IH]; intros [|d b] Ha Hb Heq; simpl in Heq.
  - now injection Heq as ->.
  - injection Heq as -> _. exfalso. apply Hb. left.
  - injection Heq as -> _. exfalso. apply Ha. left.
  - injection Heq as -> Heq. apply not_elem_of_cons in Ha as [_ Ha].
    apply not_elem_of_cons in Hb as [_ Hb].
    destruct (IH b Ha Hb Heq) as [-> ->]. done.
Qed.

(** X20: the name of the temporary PDF tells the timestamp and the item
    index apart: in one temporary directory, two conversion calls get the
    same path exactly when they have the same timestamp and the same item
    index.  Within a run, items never share a path; two runs at the same
    millisecond do, item by item. *)
Theorem X20_temp_path_collisions (h2 : Host H) (i j : nat) :
  tmpdir h = tmpdir h2 ->
  (tempPdfPath h i = tempPdfPath h2 j <->
   Date_now h i = Date_now h2 j /\ i = j).
Proof.
  intros Hdir. unfold tempPdfPath, path_join. rewrite <- Hdir. split.
  - intros Heq. do 3 apply app_inv_head in Heq.
    change (lit "_") with [95%N] in Heq. simpl app in Heq.
    apply app_sep_inj in Heq as [Hnow Hidx]; try apply ofZ_no_underscore.
    apply ofZ_inj in Hnow. apply app_inv_tail in Hidx. apply ofZ_inj in Hidx.
    split; [done | lia].
  - now intros [-> ->].
Qed.

Lemma file_attachImages_assign (p : params H) (images : list image) :
  attachImages h p images =
  fold_left
    (fun acc im =>
       <[ attachmentKey (outputProperty p) (pageNumber im) := attachment h p im ]> acc)
    images ∅.
Proof. reflexivity. Qed.

(** X21: in the file-based node too the attachment stored for a page
    number is that of the last image carrying it: an earlier image with the
    same number is overwritten silently, and a number no image carries has
    no attachment. *)
Theorem X21_file_attachment_last_wins (p : params H) (images : list image)
    (n : Z) :
  attachImages h p images !! attachmentKey (outputProperty p) n =
  attachment h p <$> last (filter (fun im => pageNumber im = n) images).
Proof.
  rewrite file_attachImages_assign, assign_all_lookup, lookup_empty.
  rewrite (list_filter_iff
             (fun im => attachmentKey (outputProperty p) (pageNumber im) =
                        attachmentKey (outputProperty p) n)
             (fun im => pageNumber im = n)).
  - now destruct (last _).
  - intros im. split; [|now intros ->]. unfold attachmentKey. intros Heq.
    do 2 apply app_inv_head in Heq. now apply ofZ_inj.
Qed.

(** A read that succeeds returns what the disk holds. *)
Lemma readFile_ok (q : jsstring) (w w1 : world) (buf : bytes) :
  readFile h q w = (w1, Ok buf) -> files w !! q = Some buf.
Proof.
  unfold readFile. destruct (fsFault h (ReadFile q) w); [discriminate|].
  destruct (files w !! q); [|discriminate]. now intros [= _ ->].
Qed.

Lemma processResults_images (fmt : jsstring) (fs : gmap jsstring bytes)
    (results : list convertResult) (images images' : list image) (w w' : world) :
  (forall q, q ∈ reportedPaths results -> files w !! q = fs !! q) ->
  NoDup (reportedPaths results) ->
  processResults h fmt results images w = (w', Ok images') ->
  exists new, images' = images ++ new /\
              Forall2 (imageOf fmt fs) (List.filter hasPath results) new.
Proof.
  revert images w. induction results as [|r rest IH]; intros images w Hfs Hnd Hrun.
  - injection Hrun as _ <-. exists []. rewrite app_nil_r. split; [done | constructor].
  - rewrite processResults_cons in Hrun. cbn [List.filter]. unfold hasPath at 1.
    unfold reportedPaths in Hfs, Hnd. simpl in Hfs, Hnd.
    destruct (truthyPath r) as [q|] eqn:Hr.
    + apply NoDup_cons in Hnd as [Hq Hnd].
      destruct (readFile h q w) as [w1 [buf|e]] eqn:Hread; [|discriminate].
      pose proof (readFile_ok q w w1 buf Hread) as Hbuf.
      assert (files w1 = files w) as Hw1
        by (pose proof (readFile_files h q w) as Hf; now rewrite Hread in Hf).
      apply IH in Hrun as (new & -> & Hnew); [| |done].
      * eexists. rewrite <- app_assoc. split; [reflexivity|].
        constructor; [|exact Hnew].
        exists q. simpl. repeat split; try done.
        rewrite <- Hfs by (left). exact Hbuf.
      * intros q' Hq'. rewrite unlink_other by (intros ->; done).
        rewrite Hw1. apply Hfs. now right.
    + now apply (IH images w).
Qed.

(** X22: when the loop over the page results completes and the reported
    paths are distinct, the images are, in order, those of the results with
    a path: each holds the bytes its file had on disk when the loop
    started, the MIME type of the format, the file name built from the raw
    page number, and the page number with 1 standing in for a missing
    one. *)
Theorem X22_images_from_disk (fmt : jsstring) (results : list convertResult)
    (images : list image) (w w' : world) :
  NoDup (reportedPaths results) ->
  processResults h fmt results [] w = (w', Ok images) ->
  Forall2 (imageOf fmt (files w)) (List.filter hasPath results) images.
Proof.
  intros Hnd Hrun.
  destruct (processResults_images fmt (files w) results [] images w w'
              (fun _ _ => eq_refl) Hnd Hrun) as (new & -> & Hnew).
  exact Hnew.
Qed.
End FileBasedMore.

Section FileBasedMoreExamples.
Import Js FileBased SpecFiles Demo.

Lemma X15_hint_keeps_diagnostic_witness :
  enhancedMessage (PlainError (lit "spawn gm ENOENT (pdf2pic)")) =
    lit "PDF conversion failed: " ++ lit "spawn gm ENOENT (pdf2pic)" ++
    lit ". Make sure GraphicsMagick or ImageMagick is installed in your system." /\
  enhancedMessage (PlainError (lit "EACCES: permission denied")) =
    lit "EACCES: permission denied".
Proof.
  split.
  - apply (proj1 (X15_hint_keeps_diagnostic
                    (PlainError (lit "spawn gm ENOENT (pdf2pic)")))).
    exists (lit "spawn gm ENOENT ("), (lit ")"). reflexivity.
  - apply (proj2 (X15_hint_keeps_diagnostic
                    (PlainError (lit "EACCES: permission denied")))).
    intros Hm. apply includesStr_app in Hm. vm_compute in Hm. discriminate.
Defined.


Lemma X17_only_own_files_witness :
  let w' := fst (itemBody (fileHost noFault) 0 emptyItem
                   {| files := {[ lit "/tmp/keep.txt" := [Byte.x07] ]};
                      trace := [] |}) in
  files w' !! lit "/tmp/keep.txt" = Some [Byte.x07] /\
  forall c, c ∈ trace w' -> c <> Unlink (lit "/tmp/keep.txt").
Proof.
  intros w'.
  destruct (X17_only_own_files (fileHost noFault) 0 emptyItem
              {| files := {[ lit "/tmp/keep.txt" := [Byte.x07] ]}; trace := [] |}
              [Byte.x25; Byte.x50] _ _ eq_refl eq_refl eq_refl eq_refl)
    as [Htrace Hframe].
  assert (lit "/tmp/keep.txt" ∉
          reportedPaths
            [ {| path := Some (lit "/tmp/page.1.png"); page := Some 1 |};
              {| path := None; page := Some 3 |};
              {| path := Some (lit "/tmp/page.2.png"); page := Some 2 |} ])
    as Hrep.
  { vm_compute reportedPaths. rewrite !not_elem_of_cons. repeat split;
      try (intros Heq; vm_compute in Heq; discriminate). apply not_elem_of_nil. }
  split.
  - unfold w'. rewrite (Hframe (lit "/tmp/keep.txt")).
    + vm_compute. reflexivity.
    + intros Heq. vm_compute in Heq. discriminate.
    + exact Hrep.
  - intros c Hc Heq. subst c.
    destruct (Htrace _ Hc) as [Hin | [Hw | [Hu | (q & Hq & [Hr | Hu])]]].
    + now apply elem_of_nil in Hin.
    + discriminate.
    + vm_compute in Hu. discriminate.
    + discriminate.
    + injection Hu as <-. now apply Hrep.
Defined.



Lemma X20_temp_path_collisions_witness :
  tempPdfPath (fileHost noFault) 0 = tempPdfPath (fileHostContinue noFault) 1 <->
  Date_now (fileHost noFault) 0 = Date_now (fileHostContinue noFault) 1 /\
  0%nat = 1%nat.
Proof.
  apply (X20_temp_path_collisions (fileHost noFault) (fileHostContinue noFault) 0 1).
  reflexivity.
Defined.

Lemma X22_images_from_disk_witness :
  let results :=
    [ {| path := Some (lit "/tmp/a.png"); page := None |};
      {| path := Some (lit ""); page := Some 2 |};
      {| path := Some (lit "/tmp/b.png"); page := Some 4 |} ] in
  let w := {| files := <[ lit "/tmp/b.png" := [Byte.x0b] ]>
                       {[ lit "/tmp/a.png" := [Byte.x0a] ]};
              trace := [] |} in
  Forall2 (imageOf (lit "png") (files w)) (List.filter hasPath results)
    (match snd (processResults (fileHost noFault) (lit "png") results [] w) with
     | Ok images => images
     | Throw _ => []
     end).
Proof.
  intros results w.
  apply (X22_images_from_disk (fileHost noFault) (lit "png") results _ w
           (fst (processResults (fileHost noFault) (lit "png") results [] w))).
  - vm_compute reportedPaths. repeat constructor;
      rewrite ?not_elem_of_cons; repeat split;
      try (intros Heq; vm_compute in Heq; discriminate); apply not_elem_of_nil.
  - vm_compute. reflexivity.
Defined.
End FileBasedMoreExamples.

(** ** From the page expression to the attachments *)

Section InMemoryCompose.
Import Js InMemory Spec.
Context {H : Type} (h : Host H).

Lemma parsePageNumbers_pagesInv (expr : jsstring) (pages : list Z) :
  parsePageNumbers expr = Ok pages -> pagesInv pages.
Proof.
  unfold parsePageNumbers. intros Hparse.
  destruct (parseParts [] (split comma expr)) as [raw|e] eqn:Hraw;
    simpl in Hparse; [|discriminate].
  injection Hparse as <-.
  assert (pagesInv raw) as [Hnd Hpos].
  { eapply parseParts_inv; [|exact Hraw]. split; constructor. }
  split; now rewrite sort_Permutation.
Qed.

(** X23: from the expression to the output item.  When the source is
    resolved, the page expression is accepted with the list [sel], and the
    backend renders every page of [sel] (a document of P pages, no page of
    [sel] beyond P), the item yields a normal output whose images carry the
    numbers of [sel] in ascending order, with [totalPages] the length of
    [sel] and one attachment per image. *)
Theorem X23_selected_pages_end_to_end (itemIndex : nat)
    (item : INodeExecutionData H) (pdfBuffer : bytes) (sel : list Z) (P : nat) :
  let p := getNodeParameter h itemIndex in
  resolvePdfBuffer h itemIndex p = Ok pdfBuffer ->
  trim (pagesParam p) <> [] ->
  parsePageNumbers (pagesParam p) = Ok sel ->
  rendersPages h pdfBuffer P ->
  Forall (fun n => n <= Z.of_nat P) sel ->
  exists images,
    processItem h itemIndex item = Ok (outputItem h item p images) /\
    pageNumber <$> images = Some <$> sel /\
    StronglySorted Z.lt sel /\
    json (outputItem h item p images) !! lit "totalPages" =
      Some (VNum (Z.of_nat (length sel))) /\
    size (attachImages h (outputPropertyName p) images) = length sel.
Proof.
  intros p Hres Hblank Hparse Hbackend Hmax.
  destruct (parsePageNumbers_pagesInv _ _ Hparse) as [Hnd Hpos].
  destruct (parsePageNumbers_inv _ _ Hparse) as [Hsorted _].
  assert (Forall (fun n => 1 <= n <= Z.of_nat P) sel) as Hvalid.
  { rewrite Forall_forall in Hpos, Hmax |- *. intros n Hn.
    split; [now apply Hpos | now apply Hmax]. }
  destruct (Hbackend {| co_scale := scale p; co_base64 := false;
                        co_page_numbers := Some sel |} Hvalid)
    as (bufs & Hconv & Hlen).
  exists (toImages (outputFormat p) (Some sel) bufs).
  assert (pageNumber <$> toImages (outputFormat p) (Some sel) bufs = Some <$> sel)
    as Htags by (now apply toImages_requested).
  split; [|split; [done|split; [done|split]]].
  - pose proof (processItem_cases h itemIndex item) as Hc.
    assert (itemBody h itemIndex item =
            Ok (outputItem h item p (toImages (outputFormat p) (Some sel) bufs)))
      as Hbody.
    { unfold itemBody. fold p. rewrite Hres. simpl. unfold parsePagesParam.
      rewrite bool_decide_eq_false_2 by done. rewrite Hparse. simpl.
      unfold convertItem, convertImages. now rewrite Hconv. }
    now rewrite Hbody in Hc.
  - unfold outputItem. simpl json.
    rewrite !lookup_insert_ne by (intros Heq; vm_compute in Heq; discriminate).
    rewrite lookup_insert_eq, toImages_length, Hlen. done.
  - rewrite attachImages_size.
    + now rewrite toImages_length.
    + rewrite Htags. apply NoDup_fmap_2; [intros a b [= ->]; done | done].
Qed.
End InMemoryCompose.

Section InMemoryComposeExamples.
Import Js InMemory Spec Demo.

Lemma pagesHost_rendersPages (pages : string) (continue : bool) :
  rendersPages (pagesHost pages continue) [Byte.x25; Byte.x50] 2.
Proof. exact (demoHost_rendersPages continue). Qed.

Lemma X23_selected_pages_end_to_end_witness :
  exists images,
    processItem (pagesHost "2, 1-2" false) 0 emptyItem =
      Ok (outputItem (pagesHost "2, 1-2" false) emptyItem
            (getNodeParameter (pagesHost "2, 1-2" false) 0) images) /\
    pageNumber <$> images = Some <$> [1; 2] /\
    StronglySorted Z.lt [1; 2] /\
    json (outputItem (pagesHost "2, 1-2" false) emptyItem
            (getNodeParameter (pagesHost "2, 1-2" false) 0) images)
      !! lit "totalPages" = Some (VNum (Z.of_nat 2)) /\
    size (attachImages (pagesHost "2, 1-2" false) (lit "images") images) = 2%nat.
Proof.
  apply (X23_selected_pages_end_to_end (pagesHost "2, 1-2" false) 0 emptyItem
           [Byte.x25; Byte.x50] [1; 2] 2).
  - reflexivity.
  - vm_compute. discriminate.
  - vm_compute. reflexivity.
  - apply pagesHost_rendersPages.
  - repeat constructor; simpl; lia.
Defined.
End InMemoryComposeExamples.

(** ** When the loop over the page results completes *)

Section FileBasedLoop.
Import Js FileBased SpecFiles.
Context {H : Type} (h : Host H).

(** X24: when no file-system call fails for a reason of its own, the loop
    over the page results completes exactly when the reported paths are
    distinct and every one of them is on disk; a path reported twice makes
    the second read fail, the file being already unlinked. *)
Theorem X24_loop_completes_iff (fmt : jsstring) (results : list convertResult)
    (images : list image) (w : world) :
  (forall c v, fsFault h c v = None) ->
  (isOk (snd (processResults h fmt results images w)) = true <->
   NoDup (reportedPaths results) /\
   forall q, q ∈ reportedPaths results -> is_Some (files w !! q)).
Proof.
  intros Hfault. revert images w.
  induction results as [|r rest IH]; intros images w.
  - simpl. split; [intros _|done]. split; [constructor|].
    intros q Hq. now apply elem_of_nil in Hq.
  - rewrite processResults_cons. unfold reportedPaths. simpl omap.
    destruct (truthyPath r) as [q|] eqn:Hr; [|apply IH].
    fold (reportedPaths rest). unfold readFile. rewrite Hfault.
    destruct (files w !! q) as [buf|] eqn:Hq.
    + set (w1 := logCall (ReadFile q) w).
      assert (files (fst (unlink h q w1)) = delete q (files w)) as Hdel.
      { unfold unlink. rewrite Hfault. unfold w1. simpl. now rewrite Hq. }
      rewrite IH, Hdel, NoDup_cons. split.
      * intros [Hnd Hall]. split; [split; [|done]|].
        -- intros Hin. destruct (Hall q Hin) as [x Hx].
           rewrite lookup_delete_eq in Hx. discriminate.
        -- intros q' Hq'. apply elem_of_cons in Hq' as [-> | Hq']; [now exists buf|].
           destruct (Hall q' Hq') as [x Hx].
           apply lookup_delete_Some in Hx as [_ Hx]. now exists x.
      * intros [[Hnew Hnd] Hall]. split; [done|].
        intros q' Hq'. rewrite lookup_delete_ne by (intros ->; done).
        apply Hall. now right.
    + simpl. split; [discriminate|]. intros [_ Hall].
      destruct (Hall q) as [x Hx]; [left | congruence].
Qed.
End FileBasedLoop.

Section FileBasedLoopExamples.
Import Js FileBased SpecFiles Demo.

Lemma X24_loop_completes_iff_witness :
  let twice :=
    [ {| path := Some (lit "/tmp/a.png"); page := Some 1 |};
      {| path := Some (lit "/tmp/a.png"); page := Some 2 |} ] in
  let w := {| files := {[ lit "/tmp/a.png" := [Byte.x0a] ]}; trace := [] |} in
  isOk (snd (processResults (fileHost noFault) (lit "png") twice [] w)) = true <->
  NoDup (reportedPaths twice) /\
  forall q, q ∈ reportedPaths twice -> is_Some (files w !! q).
Proof.
  intros twice w.
  apply (X24_loop_completes_iff (fileHost noFault) (lit "png") twice [] w).
  reflexivity.
Defined.
End FileBasedLoopExamples.

(** ** Which token the parser reports *)

Section ParserErrors.
Import Js InMemory Spec.

Lemma parsePart_throw (pages : list Z) (part : jsstring) (e : jsError) :
  parsePart pages part = Throw e ->
  e = ApplicationError (lit "Invalid page range: " ++ trim part) \/
  e = ApplicationError (lit "Invalid page number: " ++ trim part).
Proof.
  unfold parsePart. destruct (includes dash (trim part)).
  - destruct (nth 0 _ None); [|intros [= <-]; now left].
    destruct (nth 1 _ None); [|intros [= <-]; now left].
    destruct (_ || _); [intros [= <-]; now left | discriminate].
  - destruct (parseInt (trim part)); [|intros [= <-]; now right].
    destruct (_ <? _); [intros [= <-]; now right | discriminate].
Qed.

Lemma parseParts_throw (parts : list jsstring) (pages : list Z) (e : jsError) :
  parseParts pages parts = Throw e ->
  exists before part after,
    parts = before ++ part :: after /\
    forallb accepted before = true /\
    accepted part = false /\
    (e = ApplicationError (lit "Invalid page range: " ++ trim part) \/
     e = ApplicationError (lit "Invalid page number: " ++ trim part)).
Proof.
  revert pages. induction parts as [|q rest IH]; intros pages; simpl; [discriminate|].
  destruct (parsePart pages q) as [pages1|e0] eqn:Hq; simpl.
  - intros Hrest. destruct (IH _ Hrest) as (before & part & after & -> & Hb & Hp & He).
    exists (q :: before), part, after. split; [done|]. split; [|done].
    simpl. rewrite Hb, andb_true_r. unfold accepted.
    now rewrite (parsePart_isOk [] pages q), Hq.
  - intros [= <-]. exists [], q, rest. split; [done|]. split; [done|].
    split; [|now apply (parsePart_throw pages q)].
    unfold accepted. now rewrite (parsePart_isOk [] pages q), Hq.
Qed.

(** X25: an expression is accepted exactly when each of its tokens is; a
    rejected expression is reported with the error of its first rejected
    token, which quotes that token without its surrounding white space. *)
Theorem X25_first_rejected_token (expr : jsstring) :
  isOk (parsePageNumbers expr) = forallb accepted (split comma expr) /\
  forall e,
    parsePageNumbers expr = Throw e ->
    exists before part after,
      split comma expr = before ++ part :: after /\
      forallb accepted before = true /\
      accepted part = false /\
      (e = ApplicationError (lit "Invalid page range: " ++ trim part) \/
       e = ApplicationError (lit "Invalid page number: " ++ trim part)).
Proof.
  split; [apply parsePageNumbers_isOk|].
  intros e. unfold parsePageNumbers.
  destruct (parseParts [] (split comma expr)) as [raw|e0] eqn:Hraw; [discriminate|].
  intros [= <-]. now apply (parseParts_throw _ [] e0).
Qed.

Lemma X25_first_rejected_token_witness :
  exists before part after,
    split comma (lit "1, x ,0") = before ++ part :: after /\
    forallb accepted before = true /\
    accepted part = false /\
    (ApplicationError (lit "Invalid page number: x") =
       ApplicationError (lit "Invalid page range: " ++ trim part) \/
     ApplicationError (lit "Invalid page number: x") =
       ApplicationError (lit "Invalid page number: " ++ trim part)).
Proof.
  apply (proj2 (X25_first_rejected_token (lit "1, x ,0"))).
  vm_compute. reflexivity.
Defined.
End ParserErrors.
